(** * The solver of the audio auto-tagging baseline (solver.py)

    A shallow embedding of [Solver]: the metric engine [get_auc_turbo], the
    checkpoint methods [save] and [load], the optimizer schedule
    [_schedule], the training loop [train] and the evaluation runner
    [test], followed by the properties of them that the specification
    states.

    Conventions.
    - A Python [int] is a [Z], a [str] a [string], a [dict] a [gmap].
    - Floating-point numbers are kept abstract (class [FloatOps]); the
      learning rates, which the source writes as decimal literals, are
      rationals.
    - The collaborators that are not part of solver.py (the network, the
      numeric kernels of sklearn.metrics) are the fields of the classes
      [Torch] and [Sklearn].
    - Telemetry ([print], timing) is left out where it cannot raise: no
      value depends on it. *)

From Stdlib Require Import ZArith QArith.
From stdpp Require Import gmap strings list fin_maps pretty.

Open Scope Z_scope.

(** ** Python exceptions that the solver can meet *)

Inductive exn :=
| ValueError
| TypeError
| IndexError
| AttributeError
| RuntimeError
| FileNotFoundError
| UnpicklingError.

(** The outcome of a pure call that may raise. *)
Inductive pyresult (A : Type) :=
| Returns (a : A)
| Raises (e : exn).
Arguments Returns {A} a.
Arguments Raises {A} e.

(** ** numpy tables *)

(** A table is the list of its rows; [np.array] turns it into a
    two-dimensional array when it has at least one row and all rows have
    one length. *)
Abbreviation matrix A := (list (list A)).

Definition width {A} (m : matrix A) : nat :=
  match m with
  | [] => 0%nat
  | r :: _ => length r
  end.

Definition is_table {A} (w : nat) (m : matrix A) : Prop :=
  m ≠ [] ∧ Forall (λ r, length r = w) m.

Definition is_tableb {A} (w : nat) (m : matrix A) : bool :=
  negb (bool_decide (length m = 0%nat)) && forallb (λ r, bool_decide (length r = w)) m.

(** [m[:, j]] *)
Definition column {A} (j : nat) (m : matrix A) : list A :=
  omap (λ r, r !! j) m.

Definition Zsum (l : list Z) : Z := foldr Z.add 0 l.

(** [m.sum(axis=0)] *)
Definition sum_axis0 (m : matrix Z) : list Z :=
  (λ j, Zsum (column j m)) <$> seq 0 (width m).

(** [row[mask]] for a boolean mask of the row's length *)
Fixpoint select {A} (mask : list bool) (row : list A) : list A :=
  match mask, row with
  | b :: mask, x :: row => if b then x :: select mask row else select mask row
  | _, _ => []
  end.

(** [m[:, mask]] *)
Definition mask_columns {A} (mask : list bool) (m : matrix A) : matrix A :=
  select mask <$> m.

(** The positions at which a mask is set, counted from [i]. *)
Fixpoint kept_from (i : nat) (mask : list bool) : list nat :=
  match mask with
  | [] => []
  | b :: mask => if b then i :: kept_from (S i) mask else kept_from (S i) mask
  end.

(** ** Floating point *)

Class FloatOps (F : Type) := {
  f0 : F;                      (* 0.0 *)
  fadd : F → F → F;
  fdiv : F → F → F;
  f_of_nat : nat → F;
  fgt : F → F → bool           (* a > b *)
}.

(** [np.average(v)] without weights: the sum divided by the count. *)
Definition np_average `{FloatOps F} (v : list F) : F :=
  fdiv (foldl fadd f0 v) (f_of_nat (length v)).

(** A per-label result is a float or an array of floats: sklearn answers
    a table of one column, which is a binary problem to it, with a float,
    and a wider table with one score per column. *)
Inductive per_label (F : Type) :=
| Score (x : F)
| Scores (v : list F).
Arguments Score {F} x.
Arguments Scores {F} v.

(** [len] of an array; a float counts as its one score. *)
Definition entries {F} (a : per_label F) : nat :=
  match a with
  | Score _ => 1%nat
  | Scores v => length v
  end.

(** [a[i]]; a float cannot be indexed. *)
Definition item {F} (a : per_label F) (i : nat) : pyresult F :=
  match a with
  | Score _ => Raises IndexError
  | Scores v =>
    match v !! i with
    | Some x => Returns x
    | None => Raises IndexError
    end
  end.

(** [np.zeros((n, 1))]: [n] rows of one zero each; the solver only stores
    it and indexes its rows, so it is kept as its [n] entries. *)
Definition np_zeros `{FloatOps F} (n : nat) : per_label F := Scores (replicate n f0).

(** ** sklearn.metrics, as far as [get_auc_turbo] calls it

    The entry points validate their arguments and raise [ValueError]
    ([None] here) when they reject them; a table without columns is always
    rejected.  A multilabel score with [average="macro"] is the unweighted
    mean of the binary metric of each column, with [average=None] it is the
    vector of these; for a table of one column both are the binary metric
    of that column.  The binary ROC-AUC is undefined for some columns (one
    class only) and then raises [ValueError] as well. *)

Class Sklearn (F : Type) := {
  input_ok : matrix Z → matrix F → bool;
  lrap_kernel : matrix Z → matrix F → F;
  mse_kernel : matrix Z → matrix F → F;
  math_sqrt : F → option F;
  ap_binary : list Z → list F → F;
  roc_binary : list Z → list F → option F
}.

Section Metrics.
Context {F : Type} `{!FloatOps F} `{!Sklearn F}.

Definition sk_check (y_true : matrix Z) (y_score : matrix F) : bool :=
  negb (bool_decide (width y_true = 0%nat)) && input_ok y_true y_score.

Definition label_ranking_average_precision_score
    (y_true : matrix Z) (y_score : matrix F) : option F :=
  if sk_check y_true y_score then Some (lrap_kernel y_true y_score) else None.

Definition mean_squared_error (y_true : matrix Z) (y_pred : matrix F) : option F :=
  if sk_check y_true y_pred then Some (mse_kernel y_true y_pred) else None.

(** The per-column scores of a binary metric. *)
Definition binary_scores (metric : list Z → list F → option F)
    (y_true : matrix Z) (y_score : matrix F) : option (list F) :=
  if sk_check y_true y_score
  then mapM (λ c, metric (column c y_true) (column c y_score)) (seq 0 (width y_score))
  else None.

(** [average="macro"] *)
Definition macro_of (v : list F) : F :=
  match v with
  | [x] => x
  | _ => np_average v
  end.

(** [average=None] *)
Definition per_label_of (v : list F) : per_label F :=
  match v with
  | [x] => Score x
  | _ => Scores v
  end.

Definition average_precision_score_macro y_true y_score : option F :=
  macro_of <$> binary_scores (λ t s, Some (ap_binary t s)) y_true y_score.

Definition average_precision_score_none y_true y_score : option (per_label F) :=
  per_label_of <$> binary_scores (λ t s, Some (ap_binary t s)) y_true y_score.

Definition roc_auc_score_macro y_true y_score : option F :=
  macro_of <$> binary_scores roc_binary y_true y_score.

Definition roc_auc_score_none y_true y_score : option (per_label F) :=
  per_label_of <$> binary_scores roc_binary y_true y_score.

(** ** The metric engine: [get_auc_turbo] *)

(** The scalar locals of [get_auc_turbo]. *)
Record scores := {
  score_accuracy : F;
  score_lwlrap : F;
  score_roc_auc : F;
  score_pr_auc : F;
  score_mse : F
}.

Definition scores0 : scores :=
  {| score_accuracy := f0; score_lwlrap := f0; score_roc_auc := f0;
     score_pr_auc := f0; score_mse := f0 |}.

(** The first [try] block: the assignments are made in order and the first
    [ValueError] ends the block, leaving the later locals at their initial
    value. *)
Definition try_macro (y_true : matrix Z) (y_preds : matrix F) : scores :=
  match label_ranking_average_precision_score y_true y_preds with
  | None => scores0
  | Some lwlrap =>
    match mean_squared_error y_true y_preds ≫= math_sqrt with
    | None =>
      {| score_accuracy := f0; score_lwlrap := lwlrap; score_roc_auc := f0;
         score_pr_auc := f0; score_mse := f0 |}
    | Some mse =>
      match average_precision_score_macro y_true y_preds with
      | None =>
        {| score_accuracy := f0; score_lwlrap := lwlrap; score_roc_auc := f0;
           score_pr_auc := f0; score_mse := mse |}
      | Some pr_auc =>
        match roc_auc_score_macro y_true y_preds with
        | None =>
          {| score_accuracy := f0; score_lwlrap := lwlrap; score_roc_auc := f0;
             score_pr_auc := pr_auc; score_mse := mse |}
        | Some roc_auc =>
          {| score_accuracy := f0; score_lwlrap := lwlrap; score_roc_auc := roc_auc;
             score_pr_auc := pr_auc; score_mse := mse |}
        end
      end
    end
  end.

(** The second [try] block, "per tag": both vectors start as
    [np.zeros((len(labels_list), 1))]. *)
Definition try_per_tag (n_labels : nat) (y_true : matrix Z) (y_preds : matrix F)
    : per_label F * per_label F :=
  match roc_auc_score_none y_true y_preds with
  | None => (np_zeros n_labels, np_zeros n_labels)
  | Some roc_all =>
    match average_precision_score_none y_true y_preds with
    | None => (roc_all, np_zeros n_labels)
    | Some pr_all => (roc_all, pr_all)
    end
  end.

(** [cols = y_true.sum(axis=0) <= 0] *)
Definition degenerate_cols (y_true : matrix Z) : list bool :=
  (λ s, bool_decide (s ≤ 0)) <$> sum_axis0 y_true.

(** The loop that prints one line per retained tag.  For [i] below the
    number of retained tags it tests [cols[i]], the mask of the unfiltered
    columns, and unless that is set it formats [score_roc_auc_all[i]] and
    [score_pr_auc_all[i]]. *)
Fixpoint print_per_tag (cols : list bool) (roc_all pr_all : per_label F) (rows : list nat)
    : pyresult unit :=
  match rows with
  | [] => Returns ()
  | i :: rows =>
    match cols !! i with
    | None => Raises IndexError
    | Some true => print_per_tag cols roc_all pr_all rows
    | Some false =>
      match item roc_all i with
      | Raises e => Raises e
      | Returns _ =>
        match item pr_all i with
        | Raises e => Raises e
        | Returns _ => print_per_tag cols roc_all pr_all rows
        end
      end
    end
  end.

(** [get_auc_turbo(y_preds, y_true, labels_list)].

    With no row at all numpy builds a one-dimensional array, [cols] is a
    single boolean and [any(cols)] raises [TypeError].  A ragged table, a
    prediction table of another width than the mask, or a label list of
    another length than the mask ([np.array(labels_list)[~cols]]) is refused
    by numpy's indexing; these failures happen outside the [try] blocks. *)
Definition get_auc_turbo (y_preds : matrix F) (y_true : matrix Z)
    (labels_list : list string) : pyresult (F * F * per_label F * per_label F) :=
  match y_true with
  | [] => Raises TypeError
  | _ =>
    let cols := degenerate_cols y_true in
    if negb (is_tableb (length cols) y_true && is_tableb (length cols) y_preds
             && bool_decide (length labels_list = length cols))
    then Raises IndexError
    else
      let y_true' := mask_columns (negb <$> cols) y_true in
      let y_preds' := mask_columns (negb <$> cols) y_preds in
      let sc := try_macro y_true' y_preds' in
      let '(score_roc_auc_all, score_pr_auc_all) :=
        try_per_tag (length labels_list) y_true' y_preds' in
      let fixed_labels_list := select (negb <$> cols) labels_list in
      match print_per_tag cols score_roc_auc_all score_pr_auc_all
                          (seq 0 (length fixed_labels_list)) with
      | Raises e => Raises e
      | Returns _ =>
        Returns (score_roc_auc sc, score_pr_auc sc, score_roc_auc_all, score_pr_auc_all)
      end
  end.

(** The retained label columns, as the specification words them: the
    column indices whose ground-truth sum is positive. *)
Definition retained_columns (y_true : matrix Z) : list nat :=
  filter (λ j, 0 < Zsum (column j y_true)) (seq 0 (width y_true)).

(** The number of columns that reach the metric computations. *)
Definition retained_count (y_true : matrix Z) : nat :=
  width (mask_columns (negb <$> degenerate_cols y_true) y_true).


End Metrics.

(** ** torch, as far as the solver calls it *)

Inductive optimizer :=
| Adam (lr : Q)
| SGD (lr momentum weight_decay : Q) (nesterov : bool).

(** [for pg in optimizer.param_groups: pg['lr'] = lr] *)
Definition set_lr (lr : Q) (o : optimizer) : optimizer :=
  match o with
  | Adam _ => Adam lr
  | SGD _ momentum weight_decay nesterov => SGD lr momentum weight_decay nesterov
  end.

(** The network ([model.CNN]) and the effect of one optimizer step are not
    part of solver.py.  A step rewrites the value of every parameter and
    leaves the parameter names alone.  The scores of the network lie in
    [0, 1] and [nn.BCELoss] accepts them. *)
Class Torch (F : Type) := {
  tensor : Type;
  sample : Type;
  CNN : Z → gmap string tensor;
  forward : bool → gmap string tensor → sample → list F;
  optimizer_step :
    optimizer → gmap string tensor → list (sample * list Z) → string → tensor → tensor
}.

(** A batch is a list of examples, each an input with its label row. *)
Abbreviation batch := (list (sample * list Z)).

(** ** os.path.join, for two components *)

Fixpoint ends_with_slash (s : string) : bool :=
  match s with
  | EmptyString => false
  | String c EmptyString => bool_decide (String c EmptyString = "/")
  | String _ s => ends_with_slash s
  end.

Definition os_path_join (a b : string) : string :=
  if String.prefix "/" b then b
  else if bool_decide (a = "") || ends_with_slash a then a +:+ b
  else a +:+ "/" +:+ b.

Section Solver.
Context {F : Type} `{!FloatOps F} `{!Sklearn F} `{!Torch F}.

(** What [torch.save] pickles: a tensor, or a dictionary of such objects. *)
#[warnings="-register-all"]
Inductive pyobj :=
| PyTensor (t : tensor)
| PyDict (d : gmap string pyobj).

Inductive file :=
| Pickle (o : pyobj)
| NpyFloats (a : per_label F)
| NpyStrings (a : list string).


Record Config := {
  cfg_num_epochs : Z;
  cfg_model_save_path : string;
  cfg_batch_size : Z;
  cfg_subset : string;
  cfg_split : Z
}.

(** The attributes of [Solver] that are set once by [__init__]. *)
Record Solver := {
  data_loader : list batch;
  valid_loader : list batch;
  n_epochs : Z;
  model_save_path : string;
  batch_size : Z;
  tag_list : list string;
  num_class : Z;
  model_fn : string;
  roc_auc_fn : string;
  pr_auc_fn : string
}.

(** What the methods change: the parameters and the mode of [self.model],
    [self.optimizer], the files, and the number of batches drawn from the
    loaders so far. *)
Record World := {
  model : gmap string tensor;
  training : bool;
  optim : optimizer;
  disk : gmap string file;
  batches_read : nat
}.

Definition set_model (m : gmap string tensor) (w : World) : World :=
  {| model := m; training := training w; optim := optim w; disk := disk w;
     batches_read := batches_read w |}.
Definition set_training (b : bool) (w : World) : World :=
  {| model := model w; training := b; optim := optim w; disk := disk w;
     batches_read := batches_read w |}.
Definition set_optim (o : optimizer) (w : World) : World :=
  {| model := model w; training := training w; optim := o; disk := disk w;
     batches_read := batches_read w |}.
Definition set_disk (d : gmap string file) (w : World) : World :=
  {| model := model w; training := training w; optim := optim w; disk := d;
     batches_read := batches_read w |}.
Definition next_batch (w : World) : World :=
  {| model := model w; training := training w; optim := optim w; disk := disk w;
     batches_read := S (batches_read w) |}.

(** A method either returns or raises; both leave a world behind. *)
Inductive outcome (A : Type) :=
| Ok (a : A) (w : World)
| Raise (e : exn) (w : World).
Arguments Ok {A} a w.
Arguments Raise {A} e w.

Definition M (A : Type) : Type := World → outcome A.

(** The value that a call returned, if it did. *)
Definition returned {A} (o : outcome A) : option A :=
  match o with
  | Ok a _ => Some a
  | Raise _ _ => None
  end.

#[global] Instance M_ret : MRet M := λ A a w, Ok a w.
#[global] Instance M_bind : MBind M := λ A B f m w,
  match m w with
  | Ok a w' => f a w'
  | Raise e w' => Raise e w'
  end.

Definition raise {A} (e : exn) : M A := λ w, Raise e w.
Definition modify (f : World → World) : M unit := λ w, Ok () (f w).
Definition lift {A} (r : pyresult A) : M A :=
  match r with
  | Returns a => mret a
  | Raises e => raise e
  end.

(** *** torch.save, torch.load, state_dict, load_state_dict *)

Definition torch_save (o : pyobj) (f : string) : M unit :=
  modify (λ w, set_disk (<[f := Pickle o]> (disk w)) w).

Definition torch_load (f : string) : M pyobj := λ w,
  match disk w !! f with
  | None => Raise FileNotFoundError w
  | Some (Pickle o) => Ok o w
  | Some _ => Raise UnpicklingError w
  end.

Definition state_dict (m : gmap string tensor) : pyobj := PyDict (PyTensor <$> m).

Definition as_tensor (o : pyobj) : option tensor :=
  match o with
  | PyTensor t => Some t
  | PyDict _ => None
  end.

(** [model.load_state_dict(S)], strict: every parameter of the model must
    be a key of [S], [S] must have no other key, and the values must be
    tensors; otherwise [RuntimeError], and [TypeError] when [S] is no
    dictionary.  (The comparison of tensor shapes is not modelled: tensors
    are opaque.  Neither are the copies that torch has already made when
    it raises: the statements below say nothing about the parameter values
    after a load that failed on the keys.) *)
Definition load_state_dict (S : pyobj) : M unit := λ w,
  match S with
  | PyTensor _ => Raise TypeError w
  | PyDict d =>
    let params := omap as_tensor d in
    if bool_decide (dom d = dom (model w) ∧ dom params = dom d)
    then Ok () (set_model params w)
    else Raise RuntimeError w
  end.

(** *** Solver.load, Solver.save *)

Definition load (filename : string) : M unit :=
  S ← torch_load filename;
  load_state_dict S.

Definition save (filename : string) : M unit := λ w,
  torch_save (PyDict {[ "model" := state_dict (model w) ]}) filename w.

(** *** Solver.__init__, get_tag_list, build_model *)

Definition np_load_strings (path : string) : M (list string) := λ w,
  match disk w !! path with
  | None => Raise FileNotFoundError w
  | Some (NpyStrings a) => Ok a w
  | Some _ => Raise ValueError w
  end.

Definition get_tag_list (config : Config) (root : string) : M (list string) :=
  let path :=
    if String.eqb (cfg_subset config) "top50tags"
    then os_path_join root "scripts/baseline/tag_list_50.npy"
    else os_path_join root "scripts/baseline/tag_list.npy" in
  np_load_strings path.

(** The [if]/[elif] chain on [config.subset]: the class count and the
    slice of the tag list.  No branch is taken for another subset, and
    [num_class] stays unset. *)
Definition select_subset (subset : string) (tag_list : list string)
    : option Z * list string :=
  if String.eqb subset "all" then (Some 183, tag_list)
  else if String.eqb subset "genre" then (Some 87, take 87 tag_list)
  else if String.eqb subset "instrument" then (Some 40, take (127 - 87) (drop 87 tag_list))
  else if String.eqb subset "moodtheme" then (Some 56, drop 127 tag_list)
  else if String.eqb subset "top50tags" then (Some 50, tag_list)
  else (None, tag_list).

Definition build_model (num_class : Z) : M unit :=
  modify (λ w, set_optim (Adam (1 # 10000)) (set_model (CNN num_class) w)).

Definition Solver_init (data_loader valid_loader : list batch) (config : Config)
    (root : string) : M Solver :=
  tags ← get_tag_list config root;
  let '(num_class, tags) := select_subset (cfg_subset config) tags in
  match num_class with
  | None => raise AttributeError
  | Some num_class =>
    build_model num_class;;
    mret {| data_loader := data_loader;
            valid_loader := valid_loader;
            n_epochs := cfg_num_epochs config;
            model_save_path := cfg_model_save_path config;
            batch_size := cfg_batch_size config;
            tag_list := tags;
            num_class := num_class;
            model_fn := os_path_join (cfg_model_save_path config) "best_model.pth";
            roc_auc_fn := "roc_auc_" +:+ cfg_subset config +:+ "_"
                          +:+ pretty (cfg_split config) +:+ ".npy";
            pr_auc_fn := "pr_auc_" +:+ cfg_subset config +:+ "_"
                         +:+ pretty (cfg_split config) +:+ ".npy" |}
  end.

(** *** Solver._schedule *)

Definition _schedule (self : Solver) (current_optimizer : string) (drop_counter : Z)
    : M (string * Z) :=
  '(current_optimizer, drop_counter) ←
    (if String.eqb current_optimizer "adam" && (drop_counter =? 60)
     then
       load (os_path_join (model_save_path self) "best_model.pth");;
       modify (set_optim (SGD (1 # 1000) (9 # 10) (1 # 10000) true));;
       mret ("sgd_1", 0)
     else mret (current_optimizer, drop_counter));
  (* first drop *)
  '(current_optimizer, drop_counter) ←
    (if String.eqb current_optimizer "sgd_1" && (drop_counter =? 20)
     then
       load (os_path_join (model_save_path self) "best_model.pth");;
       modify (λ w, set_optim (set_lr (1 # 10000) (optim w)) w);;
       mret ("sgd_2", 0)
     else mret (current_optimizer, drop_counter));
  (* second drop *)
  '(current_optimizer, drop_counter) ←
    (if String.eqb current_optimizer "sgd_2" && (drop_counter =? 20)
     then
       load (os_path_join (model_save_path self) "best_model.pth");;
       modify (λ w, set_optim (set_lr (1 # 100000) (optim w)) w);;
       mret ("sgd_3", drop_counter)
     else mret (current_optimizer, drop_counter));
  mret (current_optimizer, drop_counter).

(** *** The loops over a loader *)

(** One iteration of the training loop: forward, loss, backward and
    [optimizer.step()] on one batch. *)
Definition step_on (o : optimizer) (params : gmap string tensor) (b : batch)
    : gmap string tensor :=
  map_imap (λ k t, Some (optimizer_step o params b k t)) params.

Definition train_batch (b : batch) : M unit :=
  modify (λ w, set_model (step_on (optim w) (model w) b) (next_batch w)).

Fixpoint train_batches (l : list batch) : M unit :=
  match l with
  | [] => mret ()
  | b :: l => train_batch b;; train_batches l
  end.

(** The prediction loop of [_validation] and of [test]: the rows of the
    model's output and of the labels are appended batch after batch.  The
    loss of the batch, which only goes into the log line, is left out; see
    [loss_defined] for the batches on which [nn.BCELoss] is defined. *)
Fixpoint predict_batches (l : list batch) (prd_array : matrix F) (gt_array : matrix Z)
    : M (matrix F * matrix Z) :=
  match l with
  | [] => mret (prd_array, gt_array)
  | b :: l => λ w,
    let out := (λ ex, forward (training w) (model w) ex.1) <$> b in
    let y := (λ ex, ex.2) <$> b in
    predict_batches l (prd_array ++ out) (gt_array ++ y) (next_batch w)
  end.

(** *** Solver._validation *)

Definition _validation (self : Solver) : M (F * F) :=
  modify (set_training false);;
  '(prd_array, gt_array) ← predict_batches (valid_loader self) [] [];
  '(roc_auc, pr_auc, _, _) ← lift (get_auc_turbo prd_array gt_array (tag_list self));
  mret (roc_auc, pr_auc).

(** *** Solver.train *)

(** The local variables of [train] that live across epochs. *)
Record locals := {
  current_optimizer : string;
  best_roc_auc : F;
  drop_counter : Z
}.

Definition locals0 : locals :=
  {| current_optimizer := "adam"; best_roc_auc := f0; drop_counter := 0 |}.

(** "save model": the checkpoint is written when the validation ROC-AUC
    beats the best one so far. *)
Definition save_best (self : Solver) (roc_auc best_roc_auc : F) : M F :=
  if fgt roc_auc best_roc_auc
  then (λ w, torch_save (state_dict (model w))
                        (os_path_join (model_save_path self) "best_model.pth") w);;
       mret roc_auc
  else mret best_roc_auc.

(** The body of [for epoch in range(self.n_epochs)]. *)
Definition train_epoch (self : Solver) (l : locals) : M locals :=
  let drop_counter := drop_counter l + 1 in
  modify (set_training true);;
  train_batches (data_loader self);;
  '(roc_auc, _) ← _validation self;
  best_roc_auc ← save_best self roc_auc (best_roc_auc l);
  '(current_optimizer, drop_counter) ← _schedule self (current_optimizer l) drop_counter;
  mret {| current_optimizer := current_optimizer; best_roc_auc := best_roc_auc;
          drop_counter := drop_counter |}.

Fixpoint train_epochs (self : Solver) (n : nat) (l : locals) : M locals :=
  match n with
  | O => mret l
  | S n => l ← train_epoch self l; train_epochs self n l
  end.

Definition train (self : Solver) : M unit :=
  train_epochs self (Z.to_nat (n_epochs self)) locals0;; mret ().

(** *** Solver.test *)

Definition np_save (f : string) (a : per_label F) : M unit :=
  modify (λ w, set_disk (<[f := NpyFloats a]> (disk w)) w).

Definition test (self : Solver) : M unit :=
  load (model_fn self);;
  modify (set_training false);;
  '(prd_array, gt_array) ← predict_batches (data_loader self) [] [];
  '(roc_auc, pr_auc, roc_auc_all, pr_auc_all) ←
    lift (get_auc_turbo prd_array gt_array (tag_list self));
  np_save (roc_auc_fn self) roc_auc_all;;
  np_save (pr_auc_fn self) pr_auc_all.

(** *** Solver.get_auc *)

(** The loop of [get_auc] that prints one line per class: it indexes the
    tag list and both per-label results at every [i] below [num_class]. *)
Fixpoint print_per_class (tag_list : list string) (roc_auc_all pr_auc_all : per_label F)
    (rows : list nat) : pyresult unit :=
  match rows with
  | [] => Returns ()
  | i :: rows =>
    match tag_list !! i with
    | None => Raises IndexError
    | Some _ =>
      match item roc_auc_all i with
      | Raises e => Raises e
      | Returns _ =>
        match item pr_auc_all i with
        | Raises e => Raises e
        | Returns _ => print_per_class tag_list roc_auc_all pr_auc_all rows
        end
      end
    end
  end.

(** [get_auc(prd_array, gt_array)]: the four sklearn calls on the tables
    as they are, without a [try]. *)
Definition get_auc (self : Solver) (prd_array : matrix F) (gt_array : matrix Z)
    : pyresult (F * F * per_label F * per_label F) :=
  match roc_auc_score_macro gt_array prd_array with
  | None => Raises ValueError
  | Some roc_aucs =>
    match average_precision_score_macro gt_array prd_array with
    | None => Raises ValueError
    | Some pr_aucs =>
      match roc_auc_score_none gt_array prd_array with
      | None => Raises ValueError
      | Some roc_auc_all =>
        match average_precision_score_none gt_array prd_array with
        | None => Raises ValueError
        | Some pr_auc_all =>
          match print_per_class (tag_list self) roc_auc_all pr_auc_all
                                (seq 0 (Z.to_nat (num_class self))) with
          | Raises e => Raises e
          | Returns _ => Returns (roc_aucs, pr_aucs, roc_auc_all, pr_auc_all)
          end
        end
      end
    end
  end.

(** *** Notions used in the statements about the solver *)

(** The vector that the file [f] holds, if it holds one. *)
Definition stored_vector (w : World) (f : string) : option (per_label F) :=
  match disk w !! f with
  | Some (NpyFloats a) => Some a
  | _ => None
  end.

(** The slot of the best model. *)
Definition best_model_path (self : Solver) : string :=
  os_path_join (model_save_path self) "best_model.pth".

(** The file [path] holds the state dictionary [sd], and [sd] has the
    parameter names of the model. *)
Definition has_checkpoint (path : string) (sd : gmap string tensor) (w : World) : Prop :=
  disk w !! path = Some (Pickle (state_dict sd)) ∧ dom sd = dom (model w).

(** The rows that the prediction loop collects from a loader. *)
Definition predictions (mode : bool) (params : gmap string tensor) (l : list batch)
    : matrix F :=
  concat ((λ b : batch, (λ ex, forward mode params ex.1) <$> b) <$> l).

Definition ground_truth (l : list batch) : matrix Z :=
  concat ((λ b : batch, (λ ex, ex.2) <$> b) <$> l).

(** The loader yields tables of one score and one label per tag, whatever
    the parameters of the network are, and the first label is not the only
    one that has a positive. *)
Definition loader_ok (n_tags : nat) (l : list batch) : Prop :=
  is_table n_tags (ground_truth l) ∧
  retained_columns (ground_truth l) ≠ [0%nat] ∧
  ∀ mode params, is_table n_tags (predictions mode params l).

(** [nn.BCELoss] is defined on every batch of the loader: each label row
    has the width of the score row that the network gives for its input.
    On another batch [reconst_loss(out, y)] raises [ValueError] inside the
    prediction loop. *)
Definition loss_defined (mode : bool) (params : gmap string tensor) (l : list batch)
    : Prop :=
  Forall (λ b : batch,
            Forall (λ ex, length (forward mode params ex.1) = length ex.2) b) l.

(** The parameters after one pass over the training loader. *)
Definition after_batches (o : optimizer) (params : gmap string tensor) (l : list batch)
    : gmap string tensor :=
  foldl (step_on o) params l.

(** The macro ROC-AUC that [_validation] returns for the parameters
    [params] (0 when [get_auc_turbo] raises). *)
Definition validation_roc (self : Solver) (params : gmap string tensor) : F :=
  match get_auc_turbo (predictions false params (valid_loader self))
                      (ground_truth (valid_loader self)) (tag_list self) with
  | Returns (roc_auc, _, _, _) => roc_auc
  | Raises _ => f0
  end.

(** The world after the training pass and the validation pass of one epoch. *)
Definition after_passes (self : Solver) (w : World) : World :=
  {| model := after_batches (optim w) (model w) (data_loader self);
     training := false;
     optim := optim w;
     disk := disk w;
     batches_read :=
       (batches_read w + length (data_loader self) + length (valid_loader self))%nat |}.

(** [b] is a strict improvement on [a]. *)
Definition improves (a b : F) : Prop := fgt b a = true.

End Solver.

Arguments Ok {F Torch0 A} a w.
Arguments Raise {F Torch0 A} e w.

(** ** Notions used in the statements *)

(** The transition table of the optimizer schedule (section 4.3 of the
    specification): the phase and the counter after a transition that is
    due, [None] when no transition is due. *)
Definition transition (current_optimizer : string) (drop_counter : Z)
    : option (string * Z) :=
  if String.eqb current_optimizer "adam" && (drop_counter =? 60) then Some ("sgd_1", 0)
  else if String.eqb current_optimizer "sgd_1" && (drop_counter =? 20) then Some ("sgd_2", 0)
  else if String.eqb current_optimizer "sgd_2" && (drop_counter =? 20)
       then Some ("sgd_3", drop_counter)
  else None.

(** The optimizer that a due transition installs, from the phase that is
    left and the optimizer in use (the "Action" column of the table). *)
Definition next_optimizer (current_optimizer : string) (o : optimizer) : optimizer :=
  if String.eqb current_optimizer "adam" then SGD (1 # 1000) (9 # 10) (1 # 10000) true
  else if String.eqb current_optimizer "sgd_1" then set_lr (1 # 10000) o
  else set_lr (1 # 100000) o.

(** The optimizer after [n] epochs of a run that starts with the
    optimizer [o]. *)
Definition optimizer_at (n : nat) (o : optimizer) : optimizer :=
  if (n <? 60)%nat then o
  else if (n <? 80)%nat then SGD (1 # 1000) (9 # 10) (1 # 10000) true
  else if (n <? 100)%nat then SGD (1 # 10000) (9 # 10) (1 # 10000) true
  else SGD (1 # 100000) (9 # 10) (1 # 10000) true.

(** The phase and the counter after [n] epochs of a run that starts in
    "adam" with a counter of 0. *)
Definition phase_at (n : nat) : string :=
  if (n <? 60)%nat then "adam"
  else if (n <? 80)%nat then "sgd_1"
  else if (n <? 100)%nat then "sgd_2"
  else "sgd_3".

Definition counter_at (n : nat) : Z :=
  if (n <? 60)%nat then Z.of_nat n
  else if (n <? 80)%nat then Z.of_nat n - 60
  else Z.of_nat n - 80.


(** ** A reference instance

    Exact rational arithmetic for the floating-point operations, textbook
    definitions for the sklearn kernels and a one-layer network.  The
    instance is used to run the solver on concrete inputs. *)

Module Ref.

Definition Qgtb (a b : Q) : bool := negb (Qle_bool a b).

Definition Qsum (l : list Q) : Q := foldr (λ a b, Qred (a + b)) 0%Q l.

Definition Qmean (l : list Q) : Q := Qred (Qsum l / inject_Z (Z.of_nat (length l))).

#[global] Instance float_Q : FloatOps Q := {|
  f0 := 0%Q;
  fadd a b := Qred (a + b);
  fdiv a b := Qred (a / b);
  f_of_nat n := inject_Z (Z.of_nat n);
  fgt := Qgtb
|}.

(** The scores of the rows whose label is [v]. *)
Definition scores_of (v : Z) (y_true : list Z) (y_score : list Q) : list Q :=
  snd <$> filter (λ p, p.1 = v) (zip y_true y_score).

(** ROC-AUC as the share of (positive, negative) pairs that are ranked
    correctly, ties counting one half; undefined with one class only. *)
Definition roc_auc (y_true : list Z) (y_score : list Q) : option Q :=
  let pos := scores_of 1 y_true y_score in
  let neg := scores_of 0 y_true y_score in
  if bool_decide (pos = []) || bool_decide (neg = []) then None
  else
    let credit p n := if Qgtb p n then 1%Q else if Qeq_bool p n then (1 # 2)%Q else 0%Q in
    Some (Qmean (p ← pos; credit p <$> neg)).

(** Average precision: the mean over the positives of the precision at
    the positive's own score. *)
Definition average_precision (y_true : list Z) (y_score : list Q) : Q :=
  let pos := scores_of 1 y_true y_score in
  let at_least t l := length (filter (λ s, Qle_bool t s = true) l) in
  Qmean ((λ t, Qred (inject_Z (Z.of_nat (at_least t pos))
                     / inject_Z (Z.of_nat (at_least t y_score)))) <$> pos).

Definition lrap_row (y_true : list Z) (y_score : list Q) : Q :=
  let pos := scores_of 1 y_true y_score in
  if bool_decide (pos = []) || bool_decide (length pos = length y_true) then 1%Q
  else average_precision y_true y_score.

Definition lrap (y_true : matrix Z) (y_score : matrix Q) : Q :=
  Qmean (zip_with lrap_row y_true y_score).

Definition mse (y_true : matrix Z) (y_pred : matrix Q) : Q :=
  Qmean (zip_with (λ t p, Qred ((inject_Z t - p) * (inject_Z t - p)))
                  (concat y_true) (concat y_pred)).

(** A square root to six decimal places; negative arguments are refused. *)
Definition sqrt6 (x : Q) : option Q :=
  if Qgtb 0%Q x then None
  else Some (Qred (Z.sqrt (Qnum x * 1000000000000 / Zpos (Qden x)) # 1000000)).

Definition binary_table (y_true : matrix Z) (y_score : matrix Q) : bool :=
  bool_decide (length y_true = length y_score)
  && forallb (λ r, bool_decide (length r = width y_true)
                   && forallb (λ v, bool_decide (v = 0 ∨ v = 1)) r) y_true
  && forallb (λ r, bool_decide (length r = width y_true)) y_score.

#[global] Instance sklearn_Q : Sklearn Q := {|
  input_ok := binary_table;
  lrap_kernel := lrap;
  mse_kernel := mse;
  math_sqrt := sqrt6;
  ap_binary := average_precision;
  roc_binary := roc_auc
|}.

(** A network with a single bias: the score of a label is the matching
    input feature plus the bias, clipped to [0, 1]; a step moves every
    weight by the learning rate. *)
Definition clip (x : Q) : Q :=
  if Qgtb 0%Q x then 0%Q else if Qgtb x 1%Q then 1%Q else Qred x.

Definition lr_of (o : optimizer) : Q :=
  match o with
  | Adam lr => lr
  | SGD lr _ _ _ => lr
  end.

Definition bias_of (params : gmap string (list Q)) : Q :=
  match params !! "fc.bias" with
  | Some (b :: _) => b
  | _ => 0%Q
  end.

#[global] Instance torch_Q : Torch Q := {|
  tensor := list Q;
  sample := list Q;
  CNN n := {[ "fc.bias" := [0%Q] ]};
  forward _ params x := (λ a, clip (a + bias_of params)) <$> x;
  optimizer_step o _ _ _ t := (λ v, Qred (v - lr_of o)) <$> t
|}.

(** Four clips of a two-label data set, in two batches. *)
Definition two_batches : list (list (list Q * list Z)) :=
  [ [ ([ (9 # 10)%Q; (2 # 10)%Q ], [1; 0]); ([ (3 # 10)%Q; (8 # 10)%Q ], [0; 1]) ];
    [ ([ (6 # 10)%Q; (7 # 10)%Q ], [1; 1]); ([ (1 # 10)%Q; (4 # 10)%Q ], [0; 0]) ] ].

Definition two_tags : list string := ["rock"; "piano"].

Definition solver0 : Solver :=
  {| data_loader := two_batches; valid_loader := two_batches; n_epochs := 100;
     model_save_path := "models"; batch_size := 2; tag_list := two_tags;
     num_class := 2; model_fn := "models/best_model.pth";
     roc_auc_fn := "roc_auc_all_0.npy"; pr_auc_fn := "pr_auc_all_0.npy" |}.

(** A fresh model, in a directory that holds no file. *)
Definition world0 : World :=
  {| model := CNN 2; training := true; optim := Adam (1 # 10000); disk := ∅;
     batches_read := 0 |}.

(** The same, with a checkpoint of the fresh model in the slot. *)
Definition world1 : World :=
  set_disk {[ "models/best_model.pth" := Pickle (state_dict (CNN 2)) ]} world0.

(** Three clips over three labels, the second of which never occurs. *)
Definition three_batches : list (list (list Q * list Z)) :=
  [ [ ([ (9 # 10)%Q; (2 # 10)%Q; (1 # 10)%Q ], [1; 0; 0]);
      ([ (3 # 10)%Q; (8 # 10)%Q; (7 # 10)%Q ], [0; 0; 1]) ];
    [ ([ (6 # 10)%Q; (7 # 10)%Q; (2 # 10)%Q ], [1; 0; 1]) ] ].

Definition solver3 : Solver :=
  {| data_loader := three_batches; valid_loader := three_batches; n_epochs := 100;
     model_save_path := "models"; batch_size := 2; tag_list := ["rock"; "jazz"; "piano"];
     num_class := 3; model_fn := "models/best_model.pth";
     roc_auc_fn := "roc_auc_all_0.npy"; pr_auc_fn := "pr_auc_all_0.npy" |}.

(** The two tag files under the root "/data". *)
Definition master_tags : list string := (λ i, "tag" +:+ pretty i) <$> seq 0 183.
Definition top50_tags : list string := (λ i, "top" +:+ pretty i) <$> seq 0 50.

Definition world_tags : World :=
  set_disk {[ "/data/scripts/baseline/tag_list.npy" := NpyStrings master_tags;
              "/data/scripts/baseline/tag_list_50.npy" := NpyStrings top50_tags ]} world0.

Definition config_instrument : Config :=
  {| cfg_num_epochs := 100; cfg_model_save_path := "models"; cfg_batch_size := 2;
     cfg_subset := "instrument"; cfg_split := 0 |}.

(** Predictions for the three rows of scenario 1, and the four labels. *)
Definition preds_1 : matrix Q :=
  [ [ (9 # 10)%Q; (1 # 10)%Q; (8 # 10)%Q; (3 # 10)%Q ];
    [ (2 # 10)%Q; (5 # 10)%Q; (2 # 10)%Q; (1 # 10)%Q ];
    [ (6 # 10)%Q; (4 # 10)%Q; (3 # 10)%Q; (2 # 10)%Q ] ].

Definition four_tags : list string := ["rock"; "jazz"; "piano"; "happy"].


(** A table in which the first label is the only one that occurs. *)
Definition only_first : matrix Z := [ [1; 0; 0; 0]; [0; 0; 0; 0]; [1; 0; 0; 0] ].

(** The predictions of scenario 1 with other scores for the second and
    the fourth label. *)
Definition preds_1_alt : matrix Q :=
  [ [ (9 # 10)%Q; (7 # 10)%Q; (8 # 10)%Q; (1 # 10)%Q ];
    [ (2 # 10)%Q; (2 # 10)%Q; (2 # 10)%Q; (9 # 10)%Q ];
    [ (6 # 10)%Q; (3 # 10)%Q; (3 # 10)%Q; (5 # 10)%Q ] ].

(** The tables of the two-label data set: the scores of the fresh model
    and the labels. *)
Definition preds_2 : matrix Q := predictions false (CNN 2) two_batches.
Definition truth_2 : matrix Z := ground_truth two_batches.




(** Four clips over the 40 instrument labels, in two batches: clip [i]
    has the labels [j] with [i + j] even, and scores that agree. *)
Definition wide_example (i : nat) : list Q * list Z :=
  ((λ j, if Nat.even (i + j) then (9 # 10)%Q else (1 # 10)%Q) <$> seq 0 40,
   (λ j, if Nat.even (i + j) then 1 else 0) <$> seq 0 40).

Definition wide_batches : list (list (list Q * list Z)) :=
  [ [ wide_example 0; wide_example 1 ]; [ wide_example 2; wide_example 3 ] ].

(** What [__init__] builds from [config_instrument] and these loaders. *)
Definition solver_instrument : Solver :=
  {| data_loader := wide_batches; valid_loader := wide_batches; n_epochs := 100;
     model_save_path := "models"; batch_size := 2;
     tag_list := take 40 (drop 87 master_tags);
     num_class := 40; model_fn := "models/best_model.pth";
     roc_auc_fn := "roc_auc_instrument_0.npy"; pr_auc_fn := "pr_auc_instrument_0.npy" |}.

Definition world_instrument : World :=
  set_optim (Adam (1 # 10000)) (set_model (CNN 40) world_tags).

(** A configuration with a subset that [__init__] does not know. *)
Definition config_mood : Config :=
  {| cfg_num_epochs := 100; cfg_model_save_path := "models"; cfg_batch_size := 2;
     cfg_subset := "mood"; cfg_split := 0 |}.

End Ref.

(** Concrete scenario 1 of the specification: three rows over four labels. *)
Definition scenario_1 : matrix Z := [ [1; 0; 1; 0]; [0; 0; 1; 0]; [1; 0; 0; 0] ].

(** ** Facts about masks and columns *)

Section MaskFacts.
Context {A : Type}.
Implicit Types (mask : list bool) (row : list A) (m : matrix A).

Lemma kept_from_elem mask : ∀ i j,
  j ∈ kept_from i mask ↔ ∃ k, j = (i + k)%nat ∧ mask !! k = Some true.
Proof.
  induction mask as [|b mask IH]; intros i j; simpl.
  - split; [intros H; inversion H | intros (k & _ & H); discriminate].
  - assert (Hshift : j ∈ kept_from (S i) mask ↔
                     ∃ k, j = (i + S k)%nat ∧ mask !! k = Some true).
    { rewrite IH. split; intros (k & -> & Hk); exists k; split; auto; lia. }
    destruct b.
    + rewrite elem_of_cons, Hshift. split.
      * intros [-> | (k & -> & Hk)]; [exists 0%nat | exists (S k)]; split; auto; lia.
      * intros ([|k] & -> & Hk); [left; lia | right; exists k; auto].
    + rewrite Hshift. split.
      * intros (k & -> & Hk). exists (S k). auto.
      * intros ([|k] & -> & Hk); [discriminate | exists k; auto].
Qed.

Lemma select_lookup mask : ∀ row i c,
  length row = length mask →
  select mask row !! c = kept_from i mask !! c ≫= λ j, row !! (j - i)%nat.
Proof.
  induction mask as [|b mask IH]; intros [|x row] i c Hlen; simpl in *;
    try discriminate; auto.
  injection Hlen as Hlen. destruct b.
  - destruct c as [|c]; simpl.
    + by replace (i - i)%nat with 0%nat by lia.
    + rewrite (IH row (S i) c Hlen). destruct (kept_from (S i) mask !! c) as [j|] eqn:Hj; auto.
      simpl. assert (S i ≤ j)%nat.
      { assert (j ∈ kept_from (S i) mask) as Hin by (eapply list_elem_of_lookup; eauto).
        apply kept_from_elem in Hin as (k & -> & _). lia. }
      by replace (j - i)%nat with (S (j - S i)) by lia.
  - rewrite (IH row (S i) c Hlen). destruct (kept_from (S i) mask !! c) as [j|] eqn:Hj; auto.
    simpl. assert (S i ≤ j)%nat.
    { assert (j ∈ kept_from (S i) mask) as Hin by (eapply list_elem_of_lookup; eauto).
      apply kept_from_elem in Hin as (k & -> & _). lia. }
    by replace (j - i)%nat with (S (j - S i)) by lia.
Qed.

Lemma select_length mask : ∀ row i,
  length row = length mask → length (select mask row) = length (kept_from i mask).
Proof.
  induction mask as [|b mask IH]; intros [|x row] i Hlen; simpl in *;
    try discriminate; auto.
  injection Hlen as Hlen. destruct b; simpl; rewrite (IH row (S i)); auto.
Qed.

(** Column [c] of the masked table is column [keep[c]] of the table. *)
Lemma column_mask_columns mask m c j :
  Forall (λ r, length r = length mask) m →
  kept_from 0 mask !! c = Some j →
  column c (mask_columns mask m) = column j m.
Proof.
  intros Hm Hj. unfold column, mask_columns.
  induction Hm as [|r m Hr _ IH]; [done|].
  rewrite fmap_cons. cbn [omap list_omap].
  fold (@omap list _ _ _ (λ r : list A, r !! c)) (@omap list _ _ _ (λ r : list A, r !! j)).
  rewrite IH, (select_lookup mask r 0%nat c Hr), Hj. simpl.
  by replace (j - 0)%nat with j by lia.
Qed.

Lemma width_mask_columns mask m :
  is_table (length mask) m →
  width (mask_columns mask m) = length (kept_from 0 mask).
Proof.
  intros [Hne Hm]. destruct m as [|r m]; [done|].
  inversion Hm; subst. simpl. by apply select_length.
Qed.

Lemma is_tableb_spec w m : is_tableb w m = true ↔ is_table w m.
Proof.
  unfold is_tableb, is_table. rewrite andb_true_iff, negb_true_iff, bool_decide_eq_false.
  rewrite forallb_forall, Forall_forall. split.
  - intros [Hne Hall]. split.
    + intros ->. by apply Hne.
    + intros r Hr. apply list_elem_of_In, Hall in Hr. by apply bool_decide_eq_true in Hr.
  - intros [Hne Hall]. split.
    + destruct m; [done | simpl; lia].
    + intros r Hr. apply bool_decide_eq_true, Hall, list_elem_of_In, Hr.
Qed.

Lemma is_table_width w m : is_table w m → width m = w.
Proof. intros [Hne Hm]. destruct m; [done|]. by inversion Hm. Qed.

End MaskFacts.

Lemma kept_from_seq (g : nat → bool) n : ∀ i,
  kept_from i (g <$> seq i n) = filter (λ j, g j = true) (seq i n).
Proof.
  induction n as [|n IH]; intros i; simpl; auto.
  rewrite filter_cons, IH. destruct (g i) eqn:Hg.
  - by rewrite decide_True.
  - by rewrite decide_False.
Qed.

Lemma length_degenerate_cols y_true : length (degenerate_cols y_true) = width y_true.
Proof. unfold degenerate_cols, sum_axis0. by rewrite !length_fmap, length_seq. Qed.

(** The mask [~cols] keeps exactly the retained columns. *)
Lemma kept_retained y_true :
  kept_from 0 (negb <$> degenerate_cols y_true) = retained_columns y_true.
Proof.
  unfold degenerate_cols, sum_axis0, retained_columns.
  rewrite <- !list_fmap_compose.
  rewrite (kept_from_seq (negb ∘ (λ s, bool_decide (s ≤ 0)) ∘ (λ j, Zsum (column j y_true)))).
  apply list_filter_iff. intros j. simpl.
  rewrite negb_true_iff, bool_decide_eq_false. lia.
Qed.

Lemma retained_columns_elem y_true j :
  j ∈ retained_columns y_true ↔ (j < width y_true)%nat ∧ 0 < Zsum (column j y_true).
Proof.
  unfold retained_columns. rewrite list_elem_of_filter, elem_of_seq. intuition lia.
Qed.

Lemma mapM_seq_lookup {B C} (h : nat → option C) (g : B → option C) (l : list B) : ∀ i,
  (∀ c j, l !! c = Some j → h (i + c)%nat = g j) →
  mapM h (seq i (length l)) = mapM g l.
Proof.
  induction l as [|x l IH]; intros i Hh; simpl; auto.
  rewrite <- (Hh 0%nat x eq_refl), Nat.add_0_r.
  rewrite (IH (S i)); auto.
  intros c j Hc. rewrite <- (Hh (S c) j Hc). f_equal. lia.
Qed.

(** ** The metric engine *)

Section MetricsFacts.
Context {F : Type} `{!FloatOps F} `{!Sklearn F}.
Implicit Types (y_true : matrix Z) (y_preds : matrix F) (labels_list : list string).

Lemma mapM_total {B C} (g : B → C) (l : list B) :
  mapM (λ c, Some (g c)) l = Some (g <$> l).
Proof. induction l as [|x l IH]; simpl; [done|]. by rewrite IH. Qed.

Lemma binary_scores_length metric y_true (y_score : matrix F) v :
  binary_scores metric y_true y_score = Some v → length v = width y_score.
Proof.
  unfold binary_scores. destruct (sk_check _ _); [|done].
  intros Hv. apply length_mapM in Hv. by rewrite <- Hv, length_seq.
Qed.

Lemma entries_per_label_of (v : list F) : entries (per_label_of v) = length v.
Proof. by destruct v as [|x [|y v]]. Qed.

Lemma item_per_label_of (v : list F) i :
  length v ≠ 1%nat → (i < length v)%nat → ∃ x, item (per_label_of v) i = Returns x.
Proof.
  intros Hone Hi. destruct (lookup_lt_is_Some_2 v i Hi) as [x Hx].
  exists x. destruct v as [|x0 [|y v]]; simpl in *; try done; by rewrite Hx.
Qed.

Lemma item_np_zeros n i : (i < n)%nat → item (np_zeros n) i = Returns (f0 : F).
Proof.
  intros Hi. unfold np_zeros, item. by rewrite lookup_replicate_2.
Qed.

(** The print loop ends when every score it formats can be indexed. *)
Lemma print_per_tag_returns cols (roc_all pr_all : per_label F) n : ∀ i,
  (i + n ≤ length cols)%nat →
  (∀ j, (i ≤ j < i + n)%nat →
        cols !! j = Some true ∨
        ((∃ x, item roc_all j = Returns x) ∧ ∃ x, item pr_all j = Returns x)) →
  print_per_tag cols roc_all pr_all (seq i n) = Returns ().
Proof.
  induction n as [|n IH]; intros i Hlen Hitems; simpl; [done|].
  destruct (lookup_lt_is_Some_2 cols i) as [b Hb]; [lia|]. rewrite Hb.
  assert (Hrest : print_per_tag cols roc_all pr_all (seq (S i) n) = Returns ()).
  { apply IH; [lia|]. intros j Hj. apply Hitems. lia. }
  destruct b; [done|].
  destruct (Hitems i) as [Hskip | [[x ->] [y ->]]]; [lia | congruence | done].
Qed.

(** It raises when a float is to be indexed. *)
Lemma print_per_tag_float cols x (pr_all : per_label F) n :
  cols !! 0%nat = Some false →
  print_per_tag cols (Score x) pr_all (seq 0 (S n)) = Raises IndexError.
Proof. intros H0. simpl. by rewrite H0. Qed.

(** The mask is set exactly at the columns that are not retained. *)
Lemma degenerate_cols_lookup y_true j :
  (j < width y_true)%nat →
  degenerate_cols y_true !! j = Some (bool_decide (j ∉ retained_columns y_true)).
Proof.
  intros Hj. unfold degenerate_cols, sum_axis0.
  rewrite !list_lookup_fmap, lookup_seq_lt by done. simpl. f_equal.
  apply bool_decide_ext. rewrite retained_columns_elem. split; [lia|].
  intros Hnot. destruct (decide (Zsum (column j y_true) ≤ 0)); [done|].
  exfalso. apply Hnot. split; [done | lia].
Qed.

Lemma retained_count_length y_true w :
  is_table w y_true → retained_count y_true = length (retained_columns y_true).
Proof.
  intros Ht. unfold retained_count.
  rewrite width_mask_columns, kept_retained; [done|].
  by rewrite length_fmap, length_degenerate_cols, (is_table_width w).
Qed.

Lemma retained_columns_length y_true : (length (retained_columns y_true) ≤ width y_true)%nat.
Proof.
  unfold retained_columns. etrans; [apply length_filter|]. by rewrite length_seq.
Qed.

(** What the second [try] block leaves in the two per-label results. *)
Lemma try_per_tag_cases n (y_true' : matrix Z) (y_preds' : matrix F) :
  (roc_auc_score_none y_true' y_preds' = None ∧
   try_per_tag n y_true' y_preds' = (np_zeros n, np_zeros n)) ∨
  (∃ v v', length v = width y_preds' ∧ length v' = width y_preds' ∧
           roc_auc_score_none y_true' y_preds' = Some (per_label_of v) ∧
           try_per_tag n y_true' y_preds' = (per_label_of v, per_label_of v')).
Proof.
  unfold try_per_tag, roc_auc_score_none, average_precision_score_none.
  destruct (binary_scores roc_binary y_true' y_preds') as [v|] eqn:Hroc; simpl; [|by left].
  right. pose proof (binary_scores_length _ _ _ _ Hroc) as Hlen.
  unfold binary_scores in *. destruct (sk_check y_true' y_preds'); [|done].
  rewrite mapM_total. simpl. eexists v, _. split_and!; [done| |done..].
  by rewrite length_fmap, length_seq.
Qed.

(** On tables, [get_auc_turbo] returns what its two [try] blocks leave,
    unless the print loop has to index a float: that needs a single retained
    label, the first, and a defined per-label ROC-AUC. *)
Lemma get_auc_turbo_table y_preds y_true labels_list w :
  is_table w y_true → is_table w y_preds → length labels_list = w →
  let y_true' := mask_columns (negb <$> degenerate_cols y_true) y_true in
  let y_preds' := mask_columns (negb <$> degenerate_cols y_true) y_preds in
  retained_columns y_true ≠ [0%nat] ∨ roc_auc_score_none y_true' y_preds' = None →
  get_auc_turbo y_preds y_true labels_list =
  Returns (score_roc_auc (try_macro y_true' y_preds'),
           score_pr_auc (try_macro y_true' y_preds'),
           (try_per_tag (length labels_list) y_true' y_preds').1,
           (try_per_tag (length labels_list) y_true' y_preds').2).
Proof.
  intros Ht Hp Hl y_true' y_preds' Hsafe. unfold get_auc_turbo.
  assert (Hrows : ∀ (X : Type) (a b : X),
            match y_true with [] => a | _ :: _ => b end = b)
    by (destruct y_true; [by destruct Ht | done]).
  rewrite Hrows.
  rewrite length_degenerate_cols, (is_table_width w y_true Ht).
  pose proof Ht as Ht'. pose proof Hp as Hp'.
  apply is_tableb_spec in Ht' as ->. apply is_tableb_spec in Hp' as ->.
  rewrite bool_decide_eq_true_2 by done. cbn [negb andb].
  fold y_true' y_preds'.
  assert (Hmask : length (negb <$> degenerate_cols y_true) = w).
  { by rewrite length_fmap, length_degenerate_cols, (is_table_width w). }
  assert (Hk : length (select (negb <$> degenerate_cols y_true) labels_list) =
               length (retained_columns y_true)).
  { rewrite (select_length _ _ 0%nat), kept_retained; [done | by rewrite Hmask]. }
  assert (Hw : width y_preds' = length (retained_columns y_true)).
  { unfold y_preds'. rewrite width_mask_columns, kept_retained; [done | by rewrite Hmask]. }
  pose proof (retained_columns_length y_true) as Hle.
  rewrite (is_table_width w y_true Ht) in Hle.
  destruct (try_per_tag (length labels_list) y_true' y_preds') as [ra pa] eqn:Htry.
  rewrite print_per_tag_returns; [done | |].
  { rewrite Hk, length_degenerate_cols, (is_table_width w y_true Ht). lia. }
  rewrite Hk. intros j [_ Hj]. simpl in Hj.
  destruct (try_per_tag_cases (length labels_list) y_true' y_preds')
    as [[_ Hzero] | (v & v' & Hv & Hv' & Hsome & Hvec)];
    rewrite Htry in *.
  - injection Hzero as -> ->. right. rewrite !item_np_zeros by lia. eauto.
  - injection Hvec as -> ->.
    destruct Hsafe as [Hsafe | Hnone]; [|congruence].
    destruct (decide (length (retained_columns y_true) = 1%nat)) as [Hone | Hmany].
    + left. assert (j = 0%nat) as -> by lia.
      rewrite degenerate_cols_lookup by (rewrite (is_table_width w y_true Ht); lia).
      f_equal. apply bool_decide_eq_true_2. intros Hin. apply Hsafe.
      destruct (retained_columns y_true) as [|c [|c' l]]; simpl in Hone; try done.
      apply list_elem_of_singleton in Hin. by subst.
    + right. split; apply item_per_label_of; lia.
Qed.

(** With the first label as the only retained one and a defined ROC-AUC
    the call raises [IndexError]. *)
Lemma get_auc_turbo_single_label y_preds y_true labels_list w :
  is_table w y_true → is_table w y_preds → length labels_list = w →
  let y_true' := mask_columns (negb <$> degenerate_cols y_true) y_true in
  let y_preds' := mask_columns (negb <$> degenerate_cols y_true) y_preds in
  retained_columns y_true = [0%nat] →
  is_Some (roc_auc_score_none y_true' y_preds') →
  get_auc_turbo y_preds y_true labels_list = Raises IndexError.
Proof.
  intros Ht Hp Hl y_true' y_preds' Hone [ra Hroc]. unfold get_auc_turbo.
  assert (Hrows : ∀ (X : Type) (a b : X),
            match y_true with [] => a | _ :: _ => b end = b)
    by (destruct y_true; [by destruct Ht | done]).
  rewrite Hrows.
  rewrite length_degenerate_cols, (is_table_width w y_true Ht).
  pose proof Ht as Ht'. pose proof Hp as Hp'.
  apply is_tableb_spec in Ht' as ->. apply is_tableb_spec in Hp' as ->.
  rewrite bool_decide_eq_true_2 by done. cbn [negb andb].
  fold y_true' y_preds'.
  assert (Hmask : length (negb <$> degenerate_cols y_true) = w).
  { by rewrite length_fmap, length_degenerate_cols, (is_table_width w). }
  rewrite (select_length _ _ 0%nat), kept_retained, Hone by (by rewrite Hmask).
  assert (Hw : width y_preds' = 1%nat).
  { unfold y_preds'. rewrite width_mask_columns, kept_retained, Hone; [done | by rewrite Hmask]. }
  destruct (try_per_tag_cases (length labels_list) y_true' y_preds')
    as [[Hnone _] | (v & v' & Hv & Hv' & _ & ->)]; [congruence|].
  rewrite Hw in Hv. destruct v as [|x [|y v]]; try done. simpl per_label_of.
  assert (0 < width y_true)%nat as H0.
  { assert (0%nat ∈ retained_columns y_true) as Hin by (rewrite Hone; set_solver).
    by apply retained_columns_elem in Hin as [? _]. }
  cbn [length]. rewrite print_per_tag_float; [done|].
  rewrite degenerate_cols_lookup by done. f_equal. apply bool_decide_eq_false_2.
  intros Hnot. apply Hnot. rewrite Hone. set_solver.
Qed.

(** The per-column scores that sklearn computes on the masked tables are
    the scores of the retained columns of the tables themselves. *)
Lemma binary_scores_masked metric y_preds y_true w :
  is_table w y_true → is_table w y_preds →
  let mask := negb <$> degenerate_cols y_true in
  binary_scores metric (mask_columns mask y_true) (mask_columns mask y_preds) =
  if sk_check (mask_columns mask y_true) (mask_columns mask y_preds)
  then mapM (λ j, metric (column j y_true) (column j y_preds)) (retained_columns y_true)
  else None.
Proof.
  intros Ht Hp mask. unfold binary_scores.
  destruct (sk_check _ _); [|done].
  assert (Hlen : length mask = w).
  { unfold mask. by rewrite length_fmap, length_degenerate_cols, (is_table_width w). }
  rewrite <- Hlen in Ht, Hp.
  rewrite (width_mask_columns mask y_preds Hp).
  unfold mask at 3. rewrite kept_retained.
  apply (mapM_seq_lookup _ _ _ 0%nat). intros c j Hc. simpl.
  rewrite <- kept_retained in Hc. fold mask in Hc.
  rewrite (column_mask_columns mask y_true c j), (column_mask_columns mask y_preds c j);
    auto; [apply Hp | apply Ht].
Qed.

(** C1 (amended).  On tables of one shape, [get_auc_turbo] keeps exactly
    the label columns whose ground-truth sum is positive; every column of
    the masked ground truth and of the masked predictions is the retained
    column of the same position; the call returns, unless the first label
    is the only retained one; the macro PR-AUC and the macro ROC-AUC that
    it returns are the initial 0 or the unweighted mean of the binary
    metric over the retained columns, and they are that mean whenever the
    computation is reached and defined.  In scenario 1 the columns of index
    1 and 3 are dropped and two labels are retained. *)
Theorem get_auc_turbo_macro_over_retained y_preds y_true labels_list w :
  is_table w y_true → is_table w y_preds → length labels_list = w →
  let keep := retained_columns y_true in
  let y_true' := mask_columns (negb <$> degenerate_cols y_true) y_true in
  let y_preds' := mask_columns (negb <$> degenerate_cols y_true) y_preds in
  let pr_mean := macro_of ((λ j, ap_binary (column j y_true) (column j y_preds)) <$> keep) in
  let roc_cols := mapM (λ j, roc_binary (column j y_true) (column j y_preds)) keep in
  (∀ j, j ∈ keep ↔ (j < w)%nat ∧ ¬ Zsum (column j y_true) ≤ 0) ∧
  retained_count y_true = length keep ∧
  width y_true' = length keep ∧ width y_preds' = length keep ∧
  (∀ c j, keep !! c = Some j →
     column c y_true' = column j y_true ∧ column c y_preds' = column j y_preds) ∧
  (keep ≠ [0%nat] →
   ∃ roc pr roc_all pr_all,
     get_auc_turbo y_preds y_true labels_list = Returns (roc, pr, roc_all, pr_all)) ∧
  (∀ roc pr roc_all pr_all,
     get_auc_turbo y_preds y_true labels_list = Returns (roc, pr, roc_all, pr_all) →
     (pr = f0 ∨ pr = pr_mean) ∧
     (roc = f0 ∨ ∃ v, roc_cols = Some v ∧ roc = macro_of v) ∧
     (sk_check y_true' y_preds' = true →
      is_Some (math_sqrt (mse_kernel y_true' y_preds')) →
      pr = pr_mean ∧ ∀ v, roc_cols = Some v → roc = macro_of v)) ∧
  retained_columns scenario_1 = [0; 2]%nat ∧ retained_count scenario_1 = 2%nat.
Proof.
  intros Ht Hp Hl keep y_true' y_preds' pr_mean roc_cols.
  assert (Hmask : length (negb <$> degenerate_cols y_true) = w).
  { by rewrite length_fmap, length_degenerate_cols, (is_table_width w). }
  split_and!.
  - intros j. unfold keep. rewrite retained_columns_elem, (is_table_width w); [|done]. lia.
  - by apply (retained_count_length _ w).
  - unfold y_true', keep. rewrite width_mask_columns, kept_retained; [done|]. by rewrite Hmask.
  - unfold y_preds', keep. rewrite width_mask_columns, kept_retained; [done|]. by rewrite Hmask.
  - intros c j Hc. unfold keep in Hc. rewrite <- kept_retained in Hc.
    split; apply column_mask_columns; auto; rewrite Hmask; [apply Ht | apply Hp].
  - intros Hkeep. rewrite (get_auc_turbo_table _ _ _ w) by auto. by do 4 eexists.
  - intros roc pr roc_all pr_all Hret.
    assert (Hscores : roc = score_roc_auc (try_macro y_true' y_preds') ∧
                      pr = score_pr_auc (try_macro y_true' y_preds')).
    { destruct (decide (keep = [0%nat])) as [Hone | Hmany].
      - destruct (roc_auc_score_none y_true' y_preds') as [ra|] eqn:Hroc.
        + rewrite (get_auc_turbo_single_label _ _ _ w) in Hret; [done..|].
          fold y_true' y_preds'. by rewrite Hroc.
        + rewrite (get_auc_turbo_table _ _ _ w) in Hret by auto.
          by injection Hret as <- <- _ _.
      - rewrite (get_auc_turbo_table _ _ _ w) in Hret by auto.
        by injection Hret as <- <- _ _. }
    destruct Hscores as [-> ->].
    assert (Hap : average_precision_score_macro y_true' y_preds' =
                  if sk_check y_true' y_preds' then Some pr_mean else None).
    { unfold average_precision_score_macro, y_true', y_preds'.
      rewrite (binary_scores_masked _ _ _ w) by done. fold y_true' y_preds' keep.
      destruct (sk_check _ _); [|done]. by rewrite mapM_total. }
    assert (Hroc : roc_auc_score_macro y_true' y_preds' =
                   if sk_check y_true' y_preds' then macro_of <$> roc_cols else None).
    { unfold roc_auc_score_macro, y_true', y_preds'.
      rewrite (binary_scores_masked _ _ _ w) by done. fold y_true' y_preds' keep.
      by destruct (sk_check _ _). }
    unfold try_macro, label_ranking_average_precision_score, mean_squared_error.
    rewrite Hap, Hroc.
    destruct (sk_check y_true' y_preds') eqn:Hchk; simpl.
    + destruct (math_sqrt (mse_kernel y_true' y_preds')) as [rmse|] eqn:Hsqrt; simpl.
      * destruct roc_cols as [v|]; simpl.
        -- split_and!; [by right | right; by exists v | intros _ _; split; [done|]].
           by intros ? [= <-].
        -- split_and!; [by right | by left | intros _ _; split; done].
      * split_and!; [by left | by left | intros _ [? [=]]].
    + split_and!; [by left | by left | done].
  - by vm_compute.
  - by vm_compute.
Qed.

(** The scenario as the specification states it (C1) does not hold: the
    last column has no positive either. *)
Lemma scenario_1_retains_two_labels :
  ¬ ((1%nat ∉ retained_columns scenario_1) ∧ retained_count scenario_1 = 3%nat).
Proof. intros [_ H]. vm_compute in H. discriminate. Qed.


End MetricsFacts.

(** ** Checkpoints *)

Section SolverFacts.
Context {F : Type} `{!FloatOps F} `{!Sklearn F} `{!Torch F}.
Implicit Types (self : Solver) (w : World) (sd : gmap string tensor) (l : @locals F).

Lemma bind_ok {A B} (m : M A) (f : A → M B) w a w1 :
  m w = Ok a w1 → (m ≫= f) w = f a w1.
Proof. intros H. unfold mbind, M_bind. by rewrite H. Qed.

Lemma bind_raise {A B} (m : M A) (f : A → M B) w e w1 :
  m w = Raise e w1 → (m ≫= f) w = Raise e w1.
Proof. intros H. unfold mbind, M_bind. by rewrite H. Qed.

Lemma omap_as_tensor_state sd : omap as_tensor (PyTensor <$> sd) = sd.
Proof.
  apply map_eq. intros k. rewrite lookup_omap, lookup_fmap.
  by destruct (sd !! k).
Qed.

(** [load] restores a state dictionary that was written for this model. *)
Lemma load_ok path sd w :
  has_checkpoint path sd w → load path w = Ok () (set_model sd w).
Proof.
  intros [Hfile Hdom]. unfold load, mbind, M_bind, torch_load. rewrite Hfile.
  unfold state_dict, load_state_dict. rewrite omap_as_tensor_state.
  rewrite bool_decide_eq_true_2; [done|].
  rewrite dom_fmap_L. split; congruence.
Qed.

(** [load] raises the not-found error when the slot is empty, and touches
    nothing. *)
Lemma load_missing path w :
  disk w !! path = None → load path w = Raise FileNotFoundError w.
Proof. intros H. unfold load, mbind, M_bind, torch_load. by rewrite H. Qed.

(** C2.  [save] followed by [load] does not restore anything: [save]
    pickles the state dictionary wrapped under the key "model", [load]
    hands the whole pickled object to the strict [load_state_dict], and the
    call raises [RuntimeError] for every model, leaving the parameters as
    they were. *)
Theorem save_then_load_raises filename w :
  (save filename ;; load filename) w =
  Raise RuntimeError
    (set_disk (<[filename := Pickle (PyDict {[ "model" := state_dict (model w) ]})]> (disk w)) w).
Proof.
  unfold save, torch_save, modify, load, torch_load, mbind, M_bind. simpl.
  rewrite lookup_insert_eq. unfold load_state_dict. simpl.
  rewrite omap_singleton_None by done.
  rewrite bool_decide_eq_false_2; [done|].
  intros [_ Hdom]. rewrite dom_empty_L, dom_singleton_L in Hdom.
  assert ("model" ∈ (∅ : gset string)) as Hin by (rewrite Hdom; set_solver).
  set_solver.
Qed.

(** X6.  The path that [train] takes instead, [torch.save] of the state
    dictionary itself, does round-trip through [load], whatever happened to
    the parameter values in between. *)
Lemma save_best_then_load self roc best w params :
  fgt roc best = true →
  dom params = dom (model w) →
  (save_best self roc best ;; modify (set_model params) ;; load (best_model_path self)) w =
  Ok () (set_disk (<[best_model_path self := Pickle (state_dict (model w))]> (disk w)) w).
Proof.
  intros Hgt Hdom. unfold save_best. rewrite Hgt.
  unfold torch_save, modify, mbind, M_bind, mret, M_ret. simpl.
  fold (best_model_path self).
  rewrite (load_ok _ (model w)).
  - by destruct w.
  - split; simpl; [by rewrite lookup_insert_eq | done].
Qed.

(** ** The optimizer schedule *)

Lemma transition_cases co dc :
  (co = "adam" ∧ dc = 60 ∧ transition co dc = Some ("sgd_1", 0)) ∨
  (co = "sgd_1" ∧ dc = 20 ∧ transition co dc = Some ("sgd_2", 0)) ∨
  (co = "sgd_2" ∧ dc = 20 ∧ transition co dc = Some ("sgd_3", 20)) ∨
  (transition co dc = None ∧
   String.eqb co "adam" && (dc =? 60) = false ∧
   String.eqb co "sgd_1" && (dc =? 20) = false ∧
   String.eqb co "sgd_2" && (dc =? 20) = false).
Proof.
  unfold transition.
  destruct (String.eqb co "adam" && (dc =? 60)) eqn:H1.
  { apply andb_true_iff in H1 as [->%String.eqb_eq ->%Z.eqb_eq]. by left. }
  destruct (String.eqb co "sgd_1" && (dc =? 20)) eqn:H2.
  { apply andb_true_iff in H2 as [->%String.eqb_eq ->%Z.eqb_eq]. right. by left. }
  destruct (String.eqb co "sgd_2" && (dc =? 20)) eqn:H3.
  { apply andb_true_iff in H3 as [->%String.eqb_eq ->%Z.eqb_eq]. right. right. by left. }
  by repeat right.
Qed.

(** Without a due transition [_schedule] returns what it was given. *)
Lemma schedule_idle self co dc w :
  transition co dc = None → _schedule self co dc w = Ok (co, dc) w.
Proof.
  intros Hnone.
  destruct (transition_cases co dc) as [(_ & _ & H) | [(_ & _ & H) | [(_ & _ & H) | H]]];
    try congruence.
  destruct H as (_ & H1 & H2 & H3).
  unfold _schedule. rewrite H1. unfold mbind, M_bind, mret, M_ret. simpl.
  rewrite H2. simpl. by rewrite H3.
Qed.

Lemma load_cases path w :
  (∃ sd, load path w = Ok () (set_model sd w)) ∨ (∃ e, load path w = Raise e w).
Proof.
  unfold load, mbind, M_bind, torch_load, load_state_dict.
  destruct (disk w !! path) as [[[t|d]| |]|]; eauto.
  case_bool_decide; eauto.
Qed.

(** A due transition reloads the checkpoint first; what [load] raises is
    raised by [_schedule], and no later transition is taken in the call. *)
Lemma schedule_due self co dc w co' dc' :
  transition co dc = Some (co', dc') →
  _schedule self co dc w =
  match load (best_model_path self) w with
  | Ok _ w1 => Ok (co', dc') (set_optim (next_optimizer co (optim w1)) w1)
  | Raise e w1 => Raise e w1
  end.
Proof.
  intros Htr. unfold best_model_path.
  destruct (transition_cases co dc)
    as [(-> & -> & H) | [(-> & -> & H) | [(-> & -> & H) | H]]];
    [| | | destruct H; congruence];
    rewrite H in Htr; injection Htr as <- <-;
    unfold _schedule, mbind, M_bind, mret, M_ret, modify; simpl;
    by destruct (load _ w).
Qed.

(** With a checkpoint in the slot a due transition is taken. *)
Lemma schedule_fires self co dc w sd co' dc' :
  has_checkpoint (best_model_path self) sd w →
  transition co dc = Some (co', dc') →
  _schedule self co dc w =
  Ok (co', dc') (set_optim (next_optimizer co (optim w)) (set_model sd w)).
Proof.
  intros Hck Htr. by rewrite (schedule_due _ _ _ _ _ _ Htr), (load_ok _ sd).
Qed.

(** Without a checkpoint a due transition raises the not-found error. *)
Lemma schedule_missing self co dc w :
  disk w !! best_model_path self = None →
  is_Some (transition co dc) →
  _schedule self co dc w = Raise FileNotFoundError w.
Proof.
  intros Hno [[co' dc'] Htr].
  by rewrite (schedule_due _ _ _ _ _ _ Htr), load_missing.
Qed.

(** [_schedule] writes no file. *)
Lemma schedule_disk self co dc w r w' :
  _schedule self co dc w = Ok r w' → disk w' = disk w.
Proof.
  destruct (transition co dc) as [[co' dc']|] eqn:Htr.
  - rewrite (schedule_due _ _ _ _ _ _ Htr).
    destruct (load_cases (best_model_path self) w) as [[sd ->] | [e ->]]; [|done].
    by intros [= <- <-].
  - rewrite schedule_idle by done. by intros [= <- <-].
Qed.

(** ** The loops *)

Lemma dom_step_on o params (b : batch) : dom (step_on o params b) = dom params.
Proof.
  unfold step_on. apply set_eq. intros k.
  rewrite !elem_of_dom, map_lookup_imap.
  destruct (params !! k); simpl; split; intros [? ?]; eauto; done.
Qed.

Lemma dom_after_batches o (bs : list batch) : ∀ params,
  dom (after_batches o params bs) = dom params.
Proof.
  unfold after_batches. induction bs as [|b bs IH]; intros params; simpl; [done|].
  by rewrite IH, dom_step_on.
Qed.

Lemma train_batches_spec (bs : list batch) : ∀ w,
  train_batches bs w =
  Ok () {| model := after_batches (optim w) (model w) bs; training := training w;
           optim := optim w; disk := disk w;
           batches_read := (batches_read w + length bs)%nat |}.
Proof.
  induction bs as [|b bs IH]; intros w; simpl.
  - unfold mret, M_ret. destruct w; simpl. by rewrite Nat.add_0_r.
  - unfold mbind, M_bind, train_batch, modify. rewrite IH. simpl.
    do 2 f_equal. lia.
Qed.

Lemma predict_batches_spec (bs : list batch) : ∀ prd gt w,
  predict_batches bs prd gt w =
  Ok (prd ++ predictions (training w) (model w) bs, gt ++ ground_truth bs)
     {| model := model w; training := training w; optim := optim w; disk := disk w;
        batches_read := (batches_read w + length bs)%nat |}.
Proof.
  induction bs as [|b bs IH]; intros prd gt w; simpl.
  - unfold mret, M_ret, predictions, ground_truth. simpl.
    rewrite !app_nil_r, Nat.add_0_r. by destruct w.
  - rewrite IH. unfold predictions, ground_truth. simpl.
    rewrite <- !app_assoc. do 2 f_equal. lia.
Qed.

(** [_validation] scores the predictions of the current parameters, in
    evaluation mode, and changes neither the parameters nor the files. *)
Lemma validation_spec self w :
  _validation self w =
  let w1 := {| model := model w; training := false; optim := optim w; disk := disk w;
               batches_read := (batches_read w + length (valid_loader self))%nat |} in
  match get_auc_turbo (predictions false (model w) (valid_loader self))
                      (ground_truth (valid_loader self)) (tag_list self) with
  | Returns (roc_auc, pr_auc, _, _) => Ok (roc_auc, pr_auc) w1
  | Raises e => Raise e w1
  end.
Proof.
  unfold _validation, mbind, M_bind, modify. rewrite predict_batches_spec. simpl.
  destruct (get_auc_turbo _ _ _) as [[[[roc pr] ra] pa]|e]; done.
Qed.

Lemma get_auc_turbo_returns y_preds y_true labels_list :
  is_table (length labels_list) y_true → is_table (length labels_list) y_preds →
  retained_columns y_true ≠ [0%nat] →
  ∃ roc pr roc_all pr_all,
    get_auc_turbo y_preds y_true labels_list = Returns (roc, pr, roc_all, pr_all).
Proof.
  intros Ht Hp Hkeep. rewrite (get_auc_turbo_table _ _ _ (length labels_list)) by auto.
  by do 4 eexists.
Qed.

(** One epoch: the passes over the two loaders, the checkpoint when the
    validation ROC-AUC improves, and the schedule. *)
Lemma train_epoch_spec self l w :
  train_epoch self l w =
  match get_auc_turbo (predictions false (model (after_passes self w)) (valid_loader self))
                      (ground_truth (valid_loader self)) (tag_list self) with
  | Raises e => Raise e (after_passes self w)
  | Returns (roc, _, _, _) =>
    let better := fgt roc (best_roc_auc l) in
    let w1 :=
      if better
      then set_disk (<[best_model_path self :=
                         Pickle (state_dict (model (after_passes self w)))]> (disk w))
                    (after_passes self w)
      else after_passes self w in
    match _schedule self (current_optimizer l) (drop_counter l + 1) w1 with
    | Ok (co, dc) w2 =>
      Ok {| current_optimizer := co;
            best_roc_auc := if better then roc else best_roc_auc l;
            drop_counter := dc |} w2
    | Raise e w2 => Raise e w2
    end
  end.
Proof.
  unfold train_epoch. unfold mbind at 1 2, M_bind at 1 2, modify at 1.
  rewrite train_batches_spec. simpl.
  unfold mbind at 1, M_bind at 1. rewrite validation_spec. simpl.
  replace (batches_read w + length (data_loader self) + length (valid_loader self))%nat
    with (batches_read (after_passes self w)) by done.
  destruct (get_auc_turbo _ _ _) as [[[[r pr] ra] pa]|e]; [|done].
  unfold mbind at 1, M_bind at 1.
  unfold save_best. fold (best_model_path self). cbv zeta.
  destruct (fgt r (best_roc_auc l)) eqn:Hbetter.
  - unfold mbind at 1 2, M_bind at 1 2, torch_save, modify, mret, M_ret. simpl.
    unfold after_passes, set_disk. simpl.
    destruct (_schedule _ _ _ _) as [[co dc] w2|e w2]; done.
  - unfold mbind at 1, M_bind at 1, mret at 1, M_ret at 1.
    unfold mbind, M_bind, after_passes.
    destruct (_schedule _ _ _ _) as [[co dc] w2|e w2]; done.
Qed.

Lemma validation_roc_returns self params roc pr roc_all pr_all :
  get_auc_turbo (predictions false params (valid_loader self))
                (ground_truth (valid_loader self)) (tag_list self)
    = Returns (roc, pr, roc_all, pr_all) →
  validation_roc self params = roc.
Proof. intros H. unfold validation_roc. by rewrite H. Qed.

(** ** The properties of the schedule *)

(** C3 (amended).  With a checkpoint in the slot, the transition out of
    "adam" at 60 and the transition out of "sgd_1" at 20 return a counter
    of 0; the transition out of "sgd_2" at 20 returns the counter as it is,
    20.  No other call changes the phase. *)
Theorem schedule_counter_after_transition self w sd :
  has_checkpoint (best_model_path self) sd w →
  _schedule self "adam" 60 w =
    Ok ("sgd_1", 0) (set_optim (SGD (1 # 1000) (9 # 10) (1 # 10000) true) (set_model sd w)) ∧
  _schedule self "sgd_1" 20 w =
    Ok ("sgd_2", 0) (set_optim (set_lr (1 # 10000) (optim w)) (set_model sd w)) ∧
  _schedule self "sgd_2" 20 w =
    Ok ("sgd_3", 20) (set_optim (set_lr (1 # 100000) (optim w)) (set_model sd w)) ∧
  ∀ co dc co' dc' w',
    _schedule self co dc w = Ok (co', dc') w' → co' ≠ co →
    (co = "adam" ∧ dc = 60 ∧ co' = "sgd_1" ∧ dc' = 0) ∨
    (co = "sgd_1" ∧ dc = 20 ∧ co' = "sgd_2" ∧ dc' = 0) ∨
    (co = "sgd_2" ∧ dc = 20 ∧ co' = "sgd_3" ∧ dc' = 20).
Proof.
  intros Hck. split_and!.
  - by rewrite (schedule_fires self "adam" 60 w sd "sgd_1" 0).
  - by rewrite (schedule_fires self "sgd_1" 20 w sd "sgd_2" 0).
  - by rewrite (schedule_fires self "sgd_2" 20 w sd "sgd_3" 20).
  - intros co dc co' dc' w' Hrun Hne.
    destruct (transition_cases co dc)
      as [(-> & -> & H) | [(-> & -> & H) | [(-> & -> & H) | (H & _)]]].
    + rewrite (schedule_fires _ _ _ _ sd _ _ Hck H) in Hrun. injection Hrun as <- <- _.
      by left.
    + rewrite (schedule_fires _ _ _ _ sd _ _ Hck H) in Hrun. injection Hrun as <- <- _.
      right. by left.
    + rewrite (schedule_fires _ _ _ _ sd _ _ Hck H) in Hrun. injection Hrun as <- <- _.
      by repeat right.
    + rewrite (schedule_idle _ _ _ _ H) in Hrun. injection Hrun as <- <- _. done.
Qed.

(** C10.  One call of [_schedule] takes at most one transition, to the
    next phase: a call that returns either gives back the phase, the
    counter and the world it was given, when no transition is due, or has
    made exactly the transition that was due; a call that raises has changed
    nothing.  When no transition is due the call returns its arguments, and
    "sgd_3" is never left. *)
Theorem schedule_single_transition self co dc w :
  let due := (co = "adam" ∧ dc = 60) ∨ (co = "sgd_1" ∧ dc = 20) ∨ (co = "sgd_2" ∧ dc = 20) in
  match _schedule self co dc w with
  | Ok (co', dc') w' =>
    (¬ due ∧ co' = co ∧ dc' = dc ∧ w' = w) ∨
    (co = "adam" ∧ dc = 60 ∧ co' = "sgd_1" ∧ dc' = 0) ∨
    (co = "sgd_1" ∧ dc = 20 ∧ co' = "sgd_2" ∧ dc' = 0) ∨
    (co = "sgd_2" ∧ dc = 20 ∧ co' = "sgd_3" ∧ dc' = 20)
  | Raise _ w' => due ∧ w' = w
  end ∧
  (¬ due → _schedule self co dc w = Ok (co, dc) w) ∧
  _schedule self "sgd_3" dc w = Ok ("sgd_3", dc) w.
Proof.
  intros due.
  assert (Hidle : transition co dc = None → ¬ due).
  { intros Hnone [[-> ->] | [[-> ->] | [-> ->]]]; discriminate. }
  split_and!.
  - destruct (transition_cases co dc)
      as [(-> & -> & H) | [(-> & -> & H) | [(-> & -> & H) | (H & _)]]].
    + rewrite (schedule_due _ _ _ _ _ _ H).
      destruct (load_cases (best_model_path self) w) as [[sd ->] | [e ->]].
      * right. by left.
      * split; [by left | done].
    + rewrite (schedule_due _ _ _ _ _ _ H).
      destruct (load_cases (best_model_path self) w) as [[sd ->] | [e ->]].
      * right. right. by left.
      * split; [right; by left | done].
    + rewrite (schedule_due _ _ _ _ _ _ H).
      destruct (load_cases (best_model_path self) w) as [[sd ->] | [e ->]].
      * by repeat right.
      * split; [by repeat right | done].
    + rewrite (schedule_idle _ _ _ _ H). left. auto.
  - intros Hnot. apply schedule_idle.
    destruct (transition_cases co dc)
      as [(-> & -> & H) | [(-> & -> & H) | [(-> & -> & H) | (H & _)]]]; [| | |done];
      exfalso; apply Hnot; unfold due; auto.
  - by apply schedule_idle.
Qed.

(** ** The schedule along a run *)

Ltac decide_tests :=
  repeat match goal with
  | |- context [(?a <? ?b)%nat] => destruct (Nat.ltb_spec a b); try lia
  | |- context [(?a =? ?b)%Z] => destruct (Z.eqb_spec a b); try lia
  end.

(** The table, applied to the phase and the incremented counter of epoch
    [n], gives the phase and the counter of epoch [n + 1]. *)
Lemma transition_at n :
  default (phase_at n, counter_at n + 1) (transition (phase_at n) (counter_at n + 1)) =
  (phase_at (S n), counter_at (S n)).
Proof.
  unfold transition, phase_at, counter_at.
  destruct (decide (n < 59)%nat); [decide_tests; simpl; f_equal; lia|].
  destruct (decide (n = 59)%nat) as [->|]; [done|].
  destruct (decide (n < 79)%nat); [decide_tests; simpl; decide_tests; simpl; f_equal; lia|].
  destruct (decide (n = 79)%nat) as [->|]; [done|].
  destruct (decide (n < 99)%nat); [decide_tests; simpl; decide_tests; simpl; f_equal; lia|].
  destruct (decide (n = 99)%nat) as [->|]; [done|].
  decide_tests; simpl; f_equal; lia.
Qed.

Lemma has_checkpoint_after_passes self sd w :
  has_checkpoint (best_model_path self) sd w →
  has_checkpoint (best_model_path self) sd (after_passes self w).
Proof.
  intros [Hfile Hdom]. split; simpl; [done|]. by rewrite dom_after_batches.
Qed.

(** One epoch of a run that has a checkpoint, or writes one. *)
Lemma train_epoch_step self l w n :
  loader_ok (length (tag_list self)) (valid_loader self) →
  (∃ sd, has_checkpoint (best_model_path self) sd w) ∨
    improves (best_roc_auc l) (validation_roc self (model (after_passes self w))) →
  current_optimizer l = phase_at n →
  drop_counter l = counter_at n →
  ∃ l' w', train_epoch self l w = Ok l' w' ∧
    current_optimizer l' = phase_at (S n) ∧ drop_counter l' = counter_at (S n) ∧
    ∃ sd, has_checkpoint (best_model_path self) sd w'.
Proof.
  intros (Hgt & Hkeep & Hprd) Hck Hphase Hcount. rewrite train_epoch_spec.
  destruct (get_auc_turbo_returns
              (predictions false (model (after_passes self w)) (valid_loader self))
              (ground_truth (valid_loader self)) (tag_list self))
    as (roc & pr & ra & pa & Hret); [done | apply Hprd | done |].
  rewrite Hret. cbv zeta.
  rewrite (validation_roc_returns _ _ _ _ _ _ Hret) in Hck.
  set (w1 := if fgt roc (best_roc_auc l) then _ else _).
  assert (∃ sd1, has_checkpoint (best_model_path self) sd1 w1) as [sd1 Hck1].
  { subst w1. destruct (fgt roc (best_roc_auc l)) eqn:Hbetter.
    - exists (model (after_passes self w)). split; simpl; [by rewrite lookup_insert_eq | done].
    - destruct Hck as [[sd Hck] | Himp]; [|unfold improves in Himp; congruence].
      exists sd. by apply has_checkpoint_after_passes. }
  pose proof (transition_at n) as Hnext. rewrite <- Hphase, <- Hcount in Hnext.
  destruct (transition (current_optimizer l) (drop_counter l + 1)) as [[co dc]|] eqn:Htr;
    simpl in Hnext.
  - rewrite (schedule_fires _ _ _ _ sd1 _ _ Hck1 Htr).
    injection Hnext as -> ->. do 2 eexists. split_and!; [done..|].
    exists sd1. destruct Hck1 as [Hfile _]. by split.
  - rewrite (schedule_idle _ _ _ _ Htr).
    injection Hnext as Hp Hc. do 2 eexists. split_and!; [done..|]. by exists sd1.
Qed.



(** ** The best metric and its checkpoint *)

(** What one epoch does to the best value and to the files. *)
Lemma train_epoch_best self l w l1 w1 :
  train_epoch self l w = Ok l1 w1 →
  let roc := validation_roc self (model (after_passes self w)) in
  (improves (best_roc_auc l) roc ∧ best_roc_auc l1 = roc ∧
   disk w1 = <[best_model_path self := Pickle (state_dict (model (after_passes self w)))]>
               (disk w)) ∨
  (¬ improves (best_roc_auc l) roc ∧ best_roc_auc l1 = best_roc_auc l ∧ disk w1 = disk w).
Proof.
  rewrite train_epoch_spec. intros Hrun roc.
  destruct (get_auc_turbo _ _ _) as [[[[r pr] ra] pa]|e] eqn:Hret; [|done].
  assert (roc = r) as -> by (by apply (validation_roc_returns _ _ _ _ _ _ Hret)).
  cbv zeta in Hrun. unfold improves.
  destruct (fgt r (best_roc_auc l)) eqn:Hbetter;
    destruct (_schedule _ _ _ _) as [[co dc] w2|e w2] eqn:Hsch; try done;
    injection Hrun as <- <-; apply schedule_disk in Hsch; simpl in *.
  - left. by rewrite Hsch.
  - right. rewrite Hsch. split_and!; [congruence|done..].
Qed.

(** C7.  Along a run the best validation ROC-AUC only moves by strict
    improvements, so it never decreases; in every epoch the best value
    becomes the validation ROC-AUC and the checkpoint is overwritten with
    the current parameters when that value strictly exceeds the best one,
    and otherwise the best value and all files stay as they are. *)
Theorem best_metric_monotone self n l w l' w' :
  train_epochs self n l w = Ok l' w' →
  rtc improves (best_roc_auc l) (best_roc_auc l') ∧
  ((∀ a b c : F, improves a b → improves b c → improves a c) →
   best_roc_auc l' = best_roc_auc l ∨ improves (best_roc_auc l) (best_roc_auc l')) ∧
  (∀ l0 w0 l1 w1,
     train_epoch self l0 w0 = Ok l1 w1 →
     let roc := validation_roc self (model (after_passes self w0)) in
     (improves (best_roc_auc l0) roc ∧ best_roc_auc l1 = roc ∧
      disk w1 = <[best_model_path self :=
                    Pickle (state_dict (model (after_passes self w0)))]> (disk w0)) ∨
     (¬ improves (best_roc_auc l0) roc ∧ best_roc_auc l1 = best_roc_auc l0 ∧
      disk w1 = disk w0)).
Proof.
  intros Hrun.
  assert (Hrtc : rtc improves (best_roc_auc l) (best_roc_auc l')).
  { revert l w Hrun. induction n as [|n IH]; intros l w Hrun; simpl in Hrun.
    - injection Hrun as <- <-. done.
    - unfold mbind, M_bind in Hrun.
      destruct (train_epoch self l w) as [l1 w1|e w1] eqn:Hstep; [|done].
      apply IH in Hrun.
      destruct (train_epoch_best _ _ _ _ _ Hstep) as [(Himp & Hbest & _) | (_ & Hbest & _)].
      + eapply rtc_l; [|exact Hrun]. by rewrite Hbest.
      + by rewrite <- Hbest. }
  split_and!; [done| |].
  - intros Htrans. induction Hrtc as [a | a b c Hab _ IH]; [by left|].
    right. destruct IH as [-> | Hbc]; [done | by eapply Htrans].
  - intros l0 w0 l1 w1. apply train_epoch_best.
Qed.

(** ** A missing checkpoint *)

(** C8.  With no file in the slot of the best model, [test] raises the
    not-found error before it has drawn a batch or changed anything, each
    due transition of [_schedule] raises it, and so does the run at the
    epoch in which a transition is due and the validation has not written
    a checkpoint. *)
Theorem missing_checkpoint_is_fatal self w :
  disk w !! model_fn self = None →
  disk w !! best_model_path self = None →
  test self w = Raise FileNotFoundError w ∧
  _schedule self "adam" 60 w = Raise FileNotFoundError w ∧
  _schedule self "sgd_1" 20 w = Raise FileNotFoundError w ∧
  _schedule self "sgd_2" 20 w = Raise FileNotFoundError w ∧
  (∀ l n roc pr roc_all pr_all,
     is_Some (transition (current_optimizer l) (drop_counter l + 1)) →
     get_auc_turbo (predictions false (model (after_passes self w)) (valid_loader self))
                   (ground_truth (valid_loader self)) (tag_list self)
       = Returns (roc, pr, roc_all, pr_all) →
     fgt roc (best_roc_auc l) = false →
     train_epochs self (S n) l w = Raise FileNotFoundError (after_passes self w)).
Proof.
  intros Htest Hbest. split_and!.
  - unfold test. by rewrite (bind_raise _ _ _ _ _ (load_missing _ _ Htest)).
  - by apply schedule_missing.
  - by apply schedule_missing.
  - by apply schedule_missing.
  - intros l n roc pr ra pa Hdue Hret Hworse. simpl.
    apply bind_raise. rewrite train_epoch_spec, Hret. cbv zeta. rewrite Hworse.
    by rewrite schedule_missing.
Qed.

(** ** The evaluation runner *)

(** The sizes of the two per-label results that [get_auc_turbo] returns. *)
Lemma get_auc_turbo_per_label y_preds y_true labels_list roc pr roc_all pr_all :
  is_table (length labels_list) y_true → is_table (length labels_list) y_preds →
  get_auc_turbo y_preds y_true labels_list = Returns (roc, pr, roc_all, pr_all) →
  let y_true' := mask_columns (negb <$> degenerate_cols y_true) y_true in
  let y_preds' := mask_columns (negb <$> degenerate_cols y_true) y_preds in
  (is_Some (roc_auc_score_none y_true' y_preds') →
   entries roc_all = retained_count y_true ∧ entries pr_all = retained_count y_true) ∧
  (roc_auc_score_none y_true' y_preds' = None →
   roc_all = np_zeros (length labels_list) ∧ pr_all = np_zeros (length labels_list)).
Proof.
  intros Ht Hp Hret y_true' y_preds'.
  assert (Hw : width y_preds' = retained_count y_true).
  { unfold y_preds'. rewrite (retained_count_length _ (length labels_list)) by done.
    rewrite width_mask_columns, kept_retained; [done|].
    by rewrite length_fmap, length_degenerate_cols, (is_table_width (length labels_list)). }
  assert (Hall : (roc_all, pr_all) = try_per_tag (length labels_list) y_true' y_preds').
  { destruct (decide (retained_columns y_true = [0%nat])) as [Hone | Hmany].
    - destruct (roc_auc_score_none y_true' y_preds') as [ra|] eqn:Hroc.
      + rewrite (get_auc_turbo_single_label _ _ _ (length labels_list)) in Hret; [done..|].
        fold y_true' y_preds'. by rewrite Hroc.
      + rewrite (get_auc_turbo_table _ _ _ (length labels_list)) in Hret by auto.
        injection Hret as _ _ <- <-. by destruct (try_per_tag _ _ _).
    - rewrite (get_auc_turbo_table _ _ _ (length labels_list)) in Hret by auto.
      injection Hret as _ _ <- <-. by destruct (try_per_tag _ _ _). }
  destruct (try_per_tag_cases (length labels_list) y_true' y_preds')
    as [[Hnone Hzero] | (v & v' & Hv & Hv' & Hsome & Hvec)].
  - rewrite Hzero in Hall. injection Hall as -> ->. rewrite Hnone.
    split; [by intros [? ?] | done].
  - rewrite Hvec in Hall. injection Hall as -> ->. rewrite Hsome.
    split; [intros _ | done]. rewrite !entries_per_label_of. split; congruence.
Qed.

(** C5 (amended).  With a checkpoint in the slot and well-formed
    evaluation tables, [test] returns and leaves two files, named
    [roc_auc_fn] and [pr_auc_fn], that hold the two per-label results
    returned by [get_auc_turbo]: one score per retained label when the
    per-label ROC-AUC is computed, the zero array of the length of the
    label list when it raises.  [__init__] names the files
    roc_auc_<subset>_<split>.npy and pr_auc_<subset>_<split>.npy. *)
Theorem test_persists_metric_vectors self w sd :
  has_checkpoint (model_fn self) sd w →
  is_table (length (tag_list self)) (ground_truth (data_loader self)) →
  is_table (length (tag_list self)) (predictions false sd (data_loader self)) →
  retained_columns (ground_truth (data_loader self)) ≠ [0%nat] →
  roc_auc_fn self ≠ pr_auc_fn self →
  let y_true := ground_truth (data_loader self) in
  let y_preds := predictions false sd (data_loader self) in
  let y_true' := mask_columns (negb <$> degenerate_cols y_true) y_true in
  let y_preds' := mask_columns (negb <$> degenerate_cols y_true) y_preds in
  (∃ roc pr roc_all pr_all w',
     get_auc_turbo y_preds y_true (tag_list self) = Returns (roc, pr, roc_all, pr_all) ∧
     test self w = Ok () w' ∧
     disk w' = <[pr_auc_fn self := NpyFloats pr_all]>
                 (<[roc_auc_fn self := NpyFloats roc_all]> (disk w)) ∧
     disk w' !! roc_auc_fn self = Some (NpyFloats roc_all) ∧
     disk w' !! pr_auc_fn self = Some (NpyFloats pr_all) ∧
     (is_Some (roc_auc_score_none y_true' y_preds') →
      entries roc_all = retained_count y_true ∧ entries pr_all = retained_count y_true) ∧
     (roc_auc_score_none y_true' y_preds' = None →
      roc_all = np_zeros (length (tag_list self)) ∧
      pr_all = np_zeros (length (tag_list self)))) ∧
  (∀ dl vl config root w0 self0 w1,
     Solver_init dl vl config root w0 = Ok self0 w1 →
     roc_auc_fn self0 =
       "roc_auc_" +:+ cfg_subset config +:+ "_" +:+ pretty (cfg_split config) +:+ ".npy" ∧
     pr_auc_fn self0 =
       "pr_auc_" +:+ cfg_subset config +:+ "_" +:+ pretty (cfg_split config) +:+ ".npy" ∧
     roc_auc_fn self0 ≠ pr_auc_fn self0).
Proof.
  intros Hck Ht Hp Hkeep Hne y_true y_preds y_true' y_preds'. split.
  - destruct (get_auc_turbo_returns y_preds y_true (tag_list self))
      as (roc & pr & ra & pa & Hret); [done..|].
    exists roc, pr, ra, pa. eexists. split; [done|].
    assert (Hrun : test self w =
              Ok () (set_disk (<[pr_auc_fn self := NpyFloats pa]>
                                 (<[roc_auc_fn self := NpyFloats ra]> (disk w)))
                       {| model := sd; training := false; optim := optim w; disk := disk w;
                          batches_read := (batches_read w + length (data_loader self))%nat |})).
    { unfold test. rewrite (bind_ok _ _ _ _ _ (load_ok _ _ _ Hck)).
      unfold mbind, M_bind, modify. rewrite predict_batches_spec. simpl.
      fold y_true y_preds. rewrite Hret. by simpl. }
    split; [exact Hrun|]. simpl. split_and!; [done| | | |].
    + by rewrite lookup_insert_ne, lookup_insert_eq.
    + by rewrite lookup_insert_eq.
    + by apply (get_auc_turbo_per_label _ _ _ _ _ _ _ Ht Hp Hret).
    + by apply (get_auc_turbo_per_label _ _ _ _ _ _ _ Ht Hp Hret).
  - intros dl vl config root w0 self0 w1. unfold Solver_init, mbind, M_bind.
    destruct (get_tag_list config root w0) as [tags w2|e w2]; [|done].
    destruct (select_subset (cfg_subset config) tags) as [[nc|] tags']; [|done].
    unfold build_model, modify, mret, M_ret. intros [= <- _]. simpl. split_and!; done.
Qed.

(** ** The label subsets *)

(** C9.  With a master list of 183 tags in tag_list.npy and a list of 50
    tags in tag_list_50.npy, [__init__] returns for each of the five
    subsets, and the class count is the length of the active tag list:
    "all" gives 183 and the master list, "genre" 87 and the tags of index
    0 to 86, "instrument" 40 and the tags of index 87 to 126, "moodtheme"
    56 and the tags of index 127 to 182, "top50tags" 50 and the separate
    list. *)
Theorem subset_label_sets dl vl config root w master top50 :
  disk w !! os_path_join root "scripts/baseline/tag_list.npy" = Some (NpyStrings master) →
  disk w !! os_path_join root "scripts/baseline/tag_list_50.npy" = Some (NpyStrings top50) →
  length master = 183%nat →
  length top50 = 50%nat →
  cfg_subset config ∈ ["all"; "genre"; "instrument"; "moodtheme"; "top50tags"] →
  ∃ self w',
    Solver_init dl vl config root w = Ok self w' ∧
    Z.of_nat (length (tag_list self)) = num_class self ∧
    (cfg_subset config = "all" → num_class self = 183 ∧ tag_list self = master) ∧
    (cfg_subset config = "genre" →
     num_class self = 87 ∧ ∀ i, (i < 87)%nat → tag_list self !! i = master !! i) ∧
    (cfg_subset config = "instrument" →
     num_class self = 40 ∧ ∀ i, (i < 40)%nat → tag_list self !! i = master !! (87 + i)%nat) ∧
    (cfg_subset config = "moodtheme" →
     num_class self = 56 ∧ ∀ i, (i < 56)%nat → tag_list self !! i = master !! (127 + i)%nat) ∧
    (cfg_subset config = "top50tags" → num_class self = 50 ∧ tag_list self = top50).
Proof.
  intros Hmaster Htop Hlen Hlen50 Hsub.
  repeat (apply elem_of_cons in Hsub as [Hsub | Hsub]); [..|by apply elem_of_nil in Hsub];
    unfold Solver_init, get_tag_list, np_load_strings, mbind, M_bind, build_model, modify,
      mret, M_ret;
    rewrite Hsub; cbn [String.eqb Ascii.eqb Bool.eqb];
    rewrite ?Hmaster, ?Htop; unfold select_subset; cbn [String.eqb Ascii.eqb Bool.eqb];
    do 2 eexists; (split; [reflexivity|]); cbn [tag_list num_class];
    (split_and!; try (intros [=]; fail)).
  - by rewrite Hlen.
  - done.
  - rewrite length_take. lia.
  - intros _. split; [done|]. intros i Hi. by apply lookup_take_lt.
  - rewrite length_take, length_drop. lia.
  - intros _. split; [done|]. intros i Hi. rewrite lookup_take_lt by done. apply lookup_drop.
  - rewrite length_drop. lia.
  - intros _. split; [done|]. intros i Hi. apply lookup_drop.
  - by rewrite Hlen50.
  - done.
Qed.

End SolverFacts.
(** ** Runs on the reference instance *)

(** Scenario 1 with predictions: both macro scores are means over the two
    retained columns. *)
Lemma get_auc_turbo_macro_over_retained_witness :
  ∃ roc pr roc_all pr_all,
    get_auc_turbo Ref.preds_1 scenario_1 Ref.four_tags = Returns (roc, pr, roc_all, pr_all) ∧
    pr = (11 # 12)%Q ∧ roc = (3 # 4)%Q.
Proof.
  destruct (@get_auc_turbo_macro_over_retained Q Ref.float_Q Ref.sklearn_Q
              Ref.preds_1 scenario_1 Ref.four_tags 4)
    as (_ & _ & _ & _ & _ & Hreturns & Hmacro & _).
  - apply is_tableb_spec. vm_compute. reflexivity.
  - apply is_tableb_spec. vm_compute. reflexivity.
  - reflexivity.
  - destruct Hreturns as (roc & pr & roc_all & pr_all & Heq); [vm_compute; discriminate|].
    exists roc, pr, roc_all, pr_all. split; [exact Heq|].
    destruct (Hmacro roc pr roc_all pr_all Heq) as (_ & _ & Hmean).
    destruct Hmean as [Hpr Hroc].
    + vm_compute. reflexivity.
    + vm_compute. eexists. reflexivity.
    + split; [rewrite Hpr | rewrite (Hroc [1%Q; (1 # 2)%Q])]; vm_compute; reflexivity.
Defined.




(** The reset of the counter (C3) fails on the last transition: the
    counter comes back as 20. *)
Lemma schedule_last_transition_keeps_counter :
  ¬ (∀ co' dc' w',
       _schedule Ref.solver0 "sgd_2" 20 Ref.world1 = Ok (co', dc') w' →
       co' ≠ "sgd_2" → dc' = 0).
Proof.
  intros H.
  assert (returned (_schedule Ref.solver0 "sgd_2" 20 Ref.world1) = Some ("sgd_3", 20)) as E
    by (vm_compute; reflexivity).
  destruct (_schedule Ref.solver0 "sgd_2" 20 Ref.world1) as [[co dc] w'|e w'];
    [|discriminate].
  injection E as -> ->.
  assert (20 = 0) as E by (by apply (H "sgd_3" 20 w')). discriminate.
Qed.

(** The first drop, with a checkpoint of the fresh model in the slot. *)
Lemma schedule_counter_after_transition_witness :
  _schedule Ref.solver0 "sgd_1" 20 Ref.world1 =
  Ok ("sgd_2", 0) (set_optim (set_lr (1 # 10000) (optim Ref.world1))
                             (set_model (CNN 2) Ref.world1)).
Proof.
  destruct (schedule_counter_after_transition Ref.solver0 Ref.world1 (CNN 2))
    as (_ & H & _).
  - split; reflexivity.
  - exact H.
Defined.


(** The length of the stored vector (C5) is not the length of the label
    list when a label column is dropped: it has one entry per retained
    label, two for the three labels here. *)
Lemma test_vector_shorter_than_label_list :
  ¬ (∀ w' v,
       test Ref.solver3 Ref.world1 = Ok () w' →
       disk w' !! roc_auc_fn Ref.solver3 = Some (NpyFloats v) →
       entries v = length (tag_list Ref.solver3)).
Proof.
  intros H.
  assert (match test Ref.solver3 Ref.world1 with
          | Ok _ w' => stored_vector w' (roc_auc_fn Ref.solver3)
          | Raise _ _ => None
          end = Some (Scores [1%Q; 1%Q])) as E by (vm_compute; reflexivity).
  destruct (test Ref.solver3 Ref.world1) as [[] w'|e w']; [|discriminate].
  unfold stored_vector in E.
  destruct (disk w' !! roc_auc_fn Ref.solver3) as [[o|a|a]|] eqn:Hfile; try discriminate.
  injection E as ->. specialize (H w' _ eq_refl Hfile). discriminate.
Qed.

(** The evaluation of three labels of which two are retained. *)
Lemma test_persists_metric_vectors_witness :
  ∃ w' roc_all,
    test Ref.solver3 Ref.world1 = Ok () w' ∧
    disk w' !! "roc_auc_all_0.npy" = Some (NpyFloats roc_all) ∧
    entries roc_all = 2%nat.
Proof.
  destruct (test_persists_metric_vectors Ref.solver3 Ref.world1 (CNN 2))
    as [(roc & pr & ra & pa & w' & Hret & Hrun & _ & Hroc & _ & Hlen & _) _].
  - split; reflexivity.
  - apply is_tableb_spec. vm_compute. reflexivity.
  - apply is_tableb_spec. vm_compute. reflexivity.
  - vm_compute. discriminate.
  - discriminate.
  - exists w', ra. split; [exact Hrun|]. split; [exact Hroc|].
    destruct Hlen as [Hlen _]; [vm_compute; eexists; reflexivity|].
    rewrite Hlen. vm_compute. reflexivity.
Defined.

(** A run of three epochs. *)
Lemma best_metric_monotone_witness :
  ∃ l' w', train_epochs Ref.solver0 3 locals0 Ref.world0 = Ok l' w' ∧
           rtc improves (best_roc_auc locals0) (best_roc_auc l').
Proof.
  assert (best_roc_auc <$> returned (train_epochs Ref.solver0 3 locals0 Ref.world0)
          = Some 1%Q) as E by (vm_compute; reflexivity).
  destruct (train_epochs Ref.solver0 3 locals0 Ref.world0) as [l' w'|e w'] eqn:Hrun;
    [|discriminate].
  exists l', w'. split; [reflexivity|].
  apply (best_metric_monotone Ref.solver0 3 locals0 Ref.world0 l' w' Hrun).
Defined.

(** An empty directory. *)
Lemma missing_checkpoint_is_fatal_witness :
  test Ref.solver0 Ref.world0 = Raise FileNotFoundError Ref.world0 ∧
  _schedule Ref.solver0 "adam" 60 Ref.world0 = Raise FileNotFoundError Ref.world0.
Proof.
  destruct (missing_checkpoint_is_fatal Ref.solver0 Ref.world0) as (Htest & Hadam & _).
  - reflexivity.
  - reflexivity.
  - split; [exact Htest | exact Hadam].
Defined.

(** The subset "instrument" of a master list tag0 ... tag182. *)
Lemma subset_label_sets_witness :
  ∃ self w',
    Solver_init [] [] Ref.config_instrument "/data" Ref.world_tags = Ok self w' ∧
    num_class self = 40 ∧
    tag_list self !! 0%nat = Some "tag87" ∧ tag_list self !! 39%nat = Some "tag126".
Proof.
  destruct (subset_label_sets [] [] Ref.config_instrument "/data" Ref.world_tags
              Ref.master_tags Ref.top50_tags)
    as (self & w' & Hinit & _ & _ & _ & Hins & _).
  - reflexivity.
  - reflexivity.
  - vm_compute. reflexivity.
  - vm_compute. reflexivity.
  - simpl. set_solver.
  - exists self, w'. split; [exact Hinit|].
    destruct Hins as [Hn Hi]; [reflexivity|].
    split; [exact Hn|]. rewrite !Hi by lia. split; vm_compute; reflexivity.
Defined.

(** ** More about the metric engine *)

Section MetricsMore.
Context {F : Type} `{!FloatOps F} `{!Sklearn F}.
Implicit Types (y_true : matrix Z) (y_preds : matrix F) (labels_list : list string).

Lemma item_raises (a : per_label F) i e : item a i = Raises e → e = IndexError.
Proof.
  destruct a as [x|v]; simpl; [by intros [= <-]|].
  destruct (v !! i); [done | by intros [= <-]].
Qed.

Lemma print_per_tag_raises cols (roc_all pr_all : per_label F) rows e :
  print_per_tag cols roc_all pr_all rows = Raises e → e = IndexError.
Proof.
  induction rows as [|i rows IH]; simpl; [done|].
  destruct (cols !! i) as [[|]|]; [done | | by intros [= <-]].
  destruct (item roc_all i) as [x|e1] eqn:Hroc;
    [|intros [= <-]; by apply item_raises in Hroc].
  destruct (item pr_all i) as [y|e2] eqn:Hpr;
    [done | intros [= <-]; by apply item_raises in Hpr].
Qed.

Lemma get_auc_turbo_no_value_error y_preds y_true labels_list :
  get_auc_turbo y_preds y_true labels_list ≠ Raises ValueError.
Proof.
  unfold get_auc_turbo. destruct y_true as [|r y_true]; [done|].
  destruct (negb _); [done|].
  destruct (try_per_tag _ _ _) as [ra pa].
  destruct (print_per_tag _ _ _ _) as [[]|e1] eqn:Hprint; [done|].
  apply print_per_tag_raises in Hprint as ->. done.
Qed.

(** X1.  On rectangular tables, of whatever widths and heights,
    [get_auc_turbo] never lets a [ValueError] out: it raises [TypeError]
    exactly on a ground truth without rows, and every other failure is an
    [IndexError] of numpy's indexing. *)
Theorem get_auc_turbo_raises y_preds y_true labels_list (w w' : nat) e :
  y_true = [] ∨ is_table w y_true →
  y_preds = [] ∨ is_table w' y_preds →
  get_auc_turbo y_preds y_true labels_list = Raises e →
  e ≠ ValueError ∧ (e = TypeError ↔ y_true = []) ∧ (e = IndexError ↔ y_true ≠ []).
Proof.
  intros _ _. unfold get_auc_turbo. destruct y_true as [|r y_true].
  - intros [= <-]. split_and!; [done | done | split; done].
  - set (cols := degenerate_cols (r :: y_true)).
    assert (e = IndexError → e ≠ ValueError ∧ (e = TypeError ↔ r :: y_true = []) ∧
                             (e = IndexError ↔ r :: y_true ≠ [])) as Hidx.
    { intros ->. split_and!; [done | split; done | split; done]. }
    destruct (negb _); [by intros [= <-]; apply Hidx|].
    destruct (try_per_tag _ _ _) as [ra pa].
    destruct (print_per_tag _ _ _ _) as [[]|e1] eqn:Hprint; [done|].
    intros [= <-]. apply Hidx. by apply print_per_tag_raises in Hprint.
Qed.

Lemma is_tableb_same {A} (m1 m2 : matrix A) w n :
  is_table w m1 → is_table w m2 → is_tableb n m1 = is_tableb n m2.
Proof.
  intros H1 H2. destruct (decide (n = w)) as [->|Hne].
  - apply is_tableb_spec in H1, H2. congruence.
  - destruct (is_tableb n m1) eqn:E1.
    { apply is_tableb_spec, is_table_width in E1. apply is_table_width in H1. congruence. }
    destruct (is_tableb n m2) eqn:E2; [|done].
    apply is_tableb_spec, is_table_width in E2. apply is_table_width in H2. congruence.
Qed.

Lemma select_agree {A} mask (r1 r2 : list A) :
  length r1 = length mask → length r2 = length mask →
  (∀ j, j ∈ kept_from 0 mask → r1 !! j = r2 !! j) →
  select mask r1 = select mask r2.
Proof.
  intros H1 H2 Hsame. apply list_eq. intros c.
  rewrite (select_lookup mask r1 0%nat c H1), (select_lookup mask r2 0%nat c H2).
  destruct (kept_from 0 mask !! c) as [j|] eqn:Hj; [|done]. simpl.
  replace (j - 0)%nat with j by lia. apply Hsame. by eapply list_elem_of_lookup_2.
Qed.

(** X2.  The scores predicted for a label without positives play no part:
    two prediction tables that agree on the retained columns get the same
    result, whatever they hold in the dropped columns. *)
Theorem get_auc_turbo_ignores_dropped_columns y_preds1 y_preds2 y_true labels_list w :
  is_table w y_preds1 → is_table w y_preds2 →
  Forall2 (λ r1 r2, ∀ j, j ∈ retained_columns y_true → r1 !! j = r2 !! j)
          y_preds1 y_preds2 →
  get_auc_turbo y_preds1 y_true labels_list = get_auc_turbo y_preds2 y_true labels_list.
Proof.
  intros Hp1 Hp2 Hrows. unfold get_auc_turbo.
  destruct y_true as [|r y_true0] eqn:Hy; [done|]. rewrite <- Hy in *. clear Hy.
  set (cols := degenerate_cols y_true).
  rewrite (is_tableb_same y_preds1 y_preds2 w (length cols) Hp1 Hp2).
  destruct (is_tableb (length cols) y_true && is_tableb (length cols) y_preds2
            && bool_decide (length labels_list = length cols)) eqn:Hshape; [|done].
  cbn [negb].
  apply andb_true_iff in Hshape as [[_ Hw]%andb_true_iff _].
  apply is_tableb_spec, is_table_width in Hw.
  rewrite (is_table_width w y_preds2 Hp2) in Hw.
  assert (mask_columns (negb <$> cols) y_preds1 = mask_columns (negb <$> cols) y_preds2)
    as ->; [|done].
  unfold mask_columns. destruct Hp1 as [_ Hl1], Hp2 as [_ Hl2].
  induction Hrows as [|r1 r2 m1 m2 Hr _ IH]; [done|].
  inversion Hl1; inversion Hl2; subst. rewrite !fmap_cons. f_equal; [|by apply IH].
  apply select_agree; rewrite ?length_fmap; [congruence.. |].
  intros j Hj. apply Hr. unfold cols in Hj. by rewrite kept_retained in Hj.
Qed.

End MetricsMore.

(** ** More about the solver *)

Section SolverMore.
Context {F : Type} `{!FloatOps F} `{!Sklearn F} `{!Torch F}.
Implicit Types (self : Solver) (w : World) (sd : gmap string tensor) (l : @locals F).

(** A dictionary of tensors is the state dictionary of its tensors. *)
Lemma state_dict_omap (d : gmap string pyobj) :
  dom (omap as_tensor d) = dom d → state_dict (omap as_tensor d) = PyDict d.
Proof.
  intros Hdom. unfold state_dict. f_equal. apply map_eq. intros k.
  rewrite lookup_fmap, lookup_omap.
  destruct (d !! k) as [[t|d']|] eqn:Hk; simpl; try done.
  assert (k ∈ dom (omap as_tensor d)) as Hin.
  { rewrite Hdom. apply elem_of_dom. eauto. }
  apply elem_of_dom in Hin as [t Ht]. rewrite lookup_omap, Hk in Ht. done.
Qed.

(** A [load] that returns has replaced the parameter values only. *)
Lemma load_frame path w w' :
  load path w = Ok () w' → w' = set_model (model w') w ∧ dom (model w') = dom (model w).
Proof.
  unfold load, mbind, M_bind, torch_load, load_state_dict.
  destruct (disk w !! path) as [[[t|d]|a|a]|]; try done.
  case_bool_decide as Hkeys; [|done]. intros [= <-]. simpl. split; [done|].
  destruct Hkeys. congruence.
Qed.

(** X5.  [load] is strict and changes parameter values only.  When it
    returns, the file holds exactly the state dictionary of the model as it
    is afterwards, under the parameter names of before, and nothing else
    has changed.  When it raises, the files, the optimizer, the mode and
    the parameter names are as before, and the error is the not-found
    error exactly when there is no file.  Without a file it raises that
    error and changes nothing. *)
Theorem load_strict path w :
  (∀ w', load path w = Ok () w' →
     disk w !! path = Some (Pickle (state_dict (model w'))) ∧
     dom (model w') = dom (model w) ∧
     w' = set_model (model w') w) ∧
  (∀ e w', load path w = Raise e w' →
     disk w' = disk w ∧ optim w' = optim w ∧ training w' = training w ∧
     batches_read w' = batches_read w ∧ dom (model w') = dom (model w) ∧
     (e = FileNotFoundError ↔ disk w !! path = None)) ∧
  (disk w !! path = None → load path w = Raise FileNotFoundError w).
Proof.
  split_and!.
  - intros w'. unfold load, mbind, M_bind, torch_load, load_state_dict.
    destruct (disk w !! path) as [[[t|d]|a|a]|] eqn:Hfile; try done.
    case_bool_decide as Hkeys; [|done]. intros [= <-].
    destruct Hkeys as [Hdom Htensors]. simpl. split_and!; [|congruence|done].
    by rewrite state_dict_omap.
  - intros e w'. unfold load, mbind, M_bind, torch_load, load_state_dict.
    destruct (disk w !! path) as [[[t|d]|a|a]|] eqn:Hfile;
      try (intros [= <- <-]; split_and!; [done..|split; done]).
    case_bool_decide as Hkeys; [done|].
    intros [= <- <-]. split_and!; [done..|split; done].
  - apply load_missing.
Qed.

(** [_schedule] changes the parameters and the optimizer only. *)
Lemma schedule_frame self co dc w r w' :
  _schedule self co dc w = Ok r w' →
  disk w' = disk w ∧ batches_read w' = batches_read w ∧ training w' = training w ∧
  dom (model w') = dom (model w).
Proof.
  destruct (transition co dc) as [[co' dc']|] eqn:Htr.
  - rewrite (schedule_due _ _ _ _ _ _ Htr).
    destruct (load (best_model_path self) w) as [[] w1|e w1] eqn:Hload; [|done].
    apply load_frame in Hload as [-> Hdom]. by intros [= <- <-].
  - rewrite schedule_idle by done. by intros [= <- <-].
Qed.

(** The optimizer that [_schedule] leaves. *)
Lemma schedule_optim self co dc w r w' :
  _schedule self co dc w = Ok r w' →
  optim w' = match transition co dc with
             | Some _ => next_optimizer co (optim w)
             | None => optim w
             end.
Proof.
  destruct (transition co dc) as [[co' dc']|] eqn:Htr.
  - rewrite (schedule_due _ _ _ _ _ _ Htr).
    destruct (load (best_model_path self) w) as [[] w1|e w1] eqn:Hload; [|done].
    apply load_frame in Hload as [-> Hdom]. by intros [= <- <-].
  - rewrite schedule_idle by done. by intros [= <- <-].
Qed.

(** What [test] does once the checkpoint is loaded. *)
Lemma test_spec self w sd :
  has_checkpoint (model_fn self) sd w →
  test self w =
  let w1 := {| model := sd; training := false; optim := optim w; disk := disk w;
               batches_read := (batches_read w + length (data_loader self))%nat |} in
  match get_auc_turbo (predictions false sd (data_loader self))
                      (ground_truth (data_loader self)) (tag_list self) with
  | Returns (_, _, roc_auc_all, pr_auc_all) =>
    Ok () (set_disk (<[pr_auc_fn self := NpyFloats pr_auc_all]>
                       (<[roc_auc_fn self := NpyFloats roc_auc_all]> (disk w))) w1)
  | Raises e => Raise e w1
  end.
Proof.
  intros Hck. unfold test. rewrite (bind_ok _ _ _ _ _ (load_ok _ _ _ Hck)).
  unfold mbind, M_bind, modify. rewrite predict_batches_spec. simpl.
  destruct (get_auc_turbo _ _ _) as [[[[roc pr] ra] pa]|e]; done.
Qed.

(** X11.  [test] scores the checkpoint, not the parameters in memory:
    on a loader whose batches the loss accepts, its outcome is the same
    for any parameter values it starts from.  It leaves the model holding
    the checkpoint in evaluation mode, the optimizer as it was, and has
    drawn every batch of the loader once; it writes nothing when the
    metric engine raises, and never touches the checkpoint when the two
    metric files have other names. *)
Theorem test_evaluates_checkpoint self w sd :
  has_checkpoint (model_fn self) sd w →
  loss_defined false sd (data_loader self) →
  (∀ params, dom params = dom (model w) → test self (set_model params w) = test self w) ∧
  match test self w with
  | Ok _ w' =>
    model w' = sd ∧ training w' = false ∧ optim w' = optim w ∧
    batches_read w' = (batches_read w + length (data_loader self))%nat ∧
    (model_fn self ≠ roc_auc_fn self → model_fn self ≠ pr_auc_fn self →
     disk w' !! model_fn self = disk w !! model_fn self)
  | Raise _ w' =>
    model w' = sd ∧ training w' = false ∧ optim w' = optim w ∧
    batches_read w' = (batches_read w + length (data_loader self))%nat ∧
    disk w' = disk w
  end.
Proof.
  intros Hck _. split.
  - intros params Hdom.
    assert (has_checkpoint (model_fn self) sd (set_model params w)) as Hck'.
    { destruct Hck as [Hfile Hkeys]. split; simpl; [done | congruence]. }
    by rewrite (test_spec _ _ _ Hck), (test_spec _ _ _ Hck').
  - rewrite (test_spec _ _ _ Hck). cbv zeta.
    destruct (get_auc_turbo _ _ _) as [[[[roc pr] ra] pa]|e]; simpl; [|done].
    split_and!; [done..|]. intros Hroc Hpr. by rewrite !lookup_insert_ne.
Qed.

(** X16.  [_validation] is read-only: on a loader whose batches the loss
    accepts, whether it returns or the metric engine raises, the
    parameters, the optimizer and the files are as before, the model is in
    evaluation mode and every batch has been drawn once; the ROC-AUC it
    returns is the one of the current parameters on the validation
    loader. *)
Theorem validation_read_only self w :
  loss_defined false (model w) (valid_loader self) →
  match _validation self w with
  | Ok (roc_auc, _) w' =>
    roc_auc = validation_roc self (model w) ∧
    model w' = model w ∧ optim w' = optim w ∧ disk w' = disk w ∧ training w' = false ∧
    batches_read w' = (batches_read w + length (valid_loader self))%nat
  | Raise e w' =>
    model w' = model w ∧ optim w' = optim w ∧ disk w' = disk w ∧ training w' = false ∧
    batches_read w' = (batches_read w + length (valid_loader self))%nat
  end.
Proof.
  intros _. rewrite validation_spec. cbv zeta. unfold validation_roc.
  destruct (get_auc_turbo _ _ _) as [[[[roc pr] ra] pa]|e] eqn:Hret; simpl; done.
Qed.

(** ** More about [__init__] *)

(** X13.  The three category subsets cut the tag list into consecutive
    pieces: the tags of "genre", "instrument" and "moodtheme", in this
    order, make up the tags of "all", whatever the list holds, and their
    class counts add up to the class count of "all". *)
Theorem subsets_partition_tag_list (tags : list string) :
  (select_subset "genre" tags).2 ++ (select_subset "instrument" tags).2
    ++ (select_subset "moodtheme" tags).2 = (select_subset "all" tags).2 ∧
  (select_subset "genre" tags).1 = Some 87 ∧
  (select_subset "instrument" tags).1 = Some 40 ∧
  (select_subset "moodtheme" tags).1 = Some 56 ∧
  (select_subset "all" tags).1 = Some (87 + 40 + 56).
Proof.
  split; [|done]. unfold select_subset. cbn [String.eqb Ascii.eqb Bool.eqb snd].
  rewrite <- (take_drop 87 tags) at 4. f_equal.
  rewrite <- (take_drop 40 (drop 87 tags)) at 2. f_equal.
  by rewrite drop_drop.
Qed.

(** X14.  [__init__] fails early.  Without the tag file it raises the
    not-found error, and for a subset that is none of the five it raises
    [AttributeError] because the class count was never set; in both cases
    no model has been built and nothing has changed.  The subset
    "top50tags" reads tag_list_50.npy, every other subset tag_list.npy. *)
Theorem init_fails_early dl vl config root w :
  let path := os_path_join root
                (if String.eqb (cfg_subset config) "top50tags"
                 then "scripts/baseline/tag_list_50.npy"
                 else "scripts/baseline/tag_list.npy") in
  (disk w !! path = None →
   Solver_init dl vl config root w = Raise FileNotFoundError w) ∧
  (∀ tags, disk w !! path = Some (NpyStrings tags) →
     cfg_subset config ∉ ["all"; "genre"; "instrument"; "moodtheme"; "top50tags"] →
     Solver_init dl vl config root w = Raise AttributeError w) ∧
  (∀ tags self w', disk w !! path = Some (NpyStrings tags) →
     Solver_init dl vl config root w = Ok self w' →
     cfg_subset config ∈ ["all"; "genre"; "instrument"; "moodtheme"; "top50tags"] ∧
     model w' = CNN (num_class self) ∧ optim w' = Adam (1 # 10000) ∧ disk w' = disk w ∧
     model_fn self = best_model_path self).
Proof.
  intros path.
  assert (Hread : ∀ r, disk w !! path = r →
            get_tag_list config root w =
            match r with
            | None => Raise FileNotFoundError w
            | Some (NpyStrings a) => Ok a w
            | Some _ => Raise ValueError w
            end).
  { intros r <-. unfold get_tag_list, np_load_strings, path.
    by destruct (String.eqb (cfg_subset config) "top50tags"). }
  assert (Hsub : cfg_subset config ∈ ["all"; "genre"; "instrument"; "moodtheme"; "top50tags"]
                 ↔ ∀ tags, is_Some (select_subset (cfg_subset config) tags).1).
  { unfold select_subset. split.
    - intros Hin tags.
      repeat (apply elem_of_cons in Hin as [-> | Hin]); [..|by apply elem_of_nil in Hin];
        by eexists.
    - intros Hsome. specialize (Hsome []).
      destruct (String.eqb_spec (cfg_subset config) "all") as [->|]; [set_solver|].
      destruct (String.eqb_spec (cfg_subset config) "genre") as [->|]; [set_solver|].
      destruct (String.eqb_spec (cfg_subset config) "instrument") as [->|]; [set_solver|].
      destruct (String.eqb_spec (cfg_subset config) "moodtheme") as [->|]; [set_solver|].
      destruct (String.eqb_spec (cfg_subset config) "top50tags") as [->|]; [set_solver|].
      by destruct Hsome. }
  split_and!.
  - intros Hnone. unfold Solver_init, mbind, M_bind. by rewrite (Hread _ Hnone).
  - intros tags Hfile Hnot. unfold Solver_init, mbind, M_bind. rewrite (Hread _ Hfile).
    destruct (select_subset (cfg_subset config) tags) as [[nc|] tags'] eqn:Hsel; [|done].
    exfalso. apply Hnot, Hsub. intros tags0.
    unfold select_subset in *.
    repeat match goal with
    | H : context [String.eqb ?a ?b] |- _ => destruct (String.eqb a b); [by eexists|]
    end. done.
  - intros tags self w' Hfile. unfold Solver_init, mbind, M_bind. rewrite (Hread _ Hfile).
    destruct (select_subset (cfg_subset config) tags) as [[nc|] tags'] eqn:Hsel; [|done].
    unfold build_model, modify, mret, M_ret. intros [= <- <-]. simpl.
    split_and!; try done.
    apply Hsub. intros tags0. unfold select_subset in *.
    repeat match goal with
    | H : context [String.eqb ?a ?b] |- _ => destruct (String.eqb a b); [by eexists|]
    end. done.
Qed.

(** ** [get_auc] *)

Lemma print_per_class_raises tags (roc_all pr_all : per_label F) rows e :
  print_per_class tags roc_all pr_all rows = Raises e → e = IndexError.
Proof.
  induction rows as [|i rows IH]; simpl; [done|].
  destruct (tags !! i); [|by intros [= <-]].
  destruct (item roc_all i) as [x|e1] eqn:Hroc;
    [|intros [= <-]; by apply item_raises in Hroc].
  destruct (item pr_all i) as [y|e2] eqn:Hpr;
    [done | intros [= <-]; by apply item_raises in Hpr].
Qed.

(** The loop of [get_auc] ends exactly when the class count exceeds
    neither the tag list nor the two arrays. *)
Lemma print_per_class_arrays (tags : list string) (v v' : list F) n : ∀ i,
  print_per_class tags (Scores v) (Scores v') (seq i n) = Returns () ↔
  n = 0%nat ∨ (i + n ≤ length tags ∧ i + n ≤ length v ∧ i + n ≤ length v')%nat.
Proof.
  induction n as [|n IH]; intros i; simpl; [by split; [left|]|].
  destruct (tags !! i) as [t|] eqn:Ht.
  - destruct (v !! i) as [x|] eqn:Hx.
    + destruct (v' !! i) as [y|] eqn:Hy.
      * apply lookup_lt_Some in Ht, Hx, Hy. rewrite IH. split.
        -- intros [-> | ?]; right; lia.
        -- intros [? | ?]; [done|]. destruct n; [by left | right; lia].
      * apply lookup_ge_None in Hy. split; [done|]. intros [? | ?]; [done | lia].
    + apply lookup_ge_None in Hx. split; [done|]. intros [? | ?]; [done | lia].
  - apply lookup_ge_None in Ht. split; [done|]. intros [? | ?]; [done | lia].
Qed.

Lemma macro_of_wide (v : list F) : (2 ≤ length v)%nat → macro_of v = np_average v.
Proof. by destruct v as [|x [|y v]]; simpl; [lia | lia |]. Qed.

Lemma per_label_of_wide (v : list F) : (2 ≤ length v)%nat → per_label_of v = Scores v.
Proof. by destruct v as [|x [|y v]]; simpl; [lia | lia |]. Qed.

(** X4.  [get_auc] catches nothing.  On tables of two or more columns it
    raises [ValueError] when sklearn refuses the tables or the ROC-AUC of
    some column is undefined, and [IndexError] when the class count exceeds
    the number of columns or of tags; otherwise it returns the two macro
    means and the two arrays of per-column scores. *)
Theorem get_auc_cases self prd_array gt_array (w : nat) :
  is_table w gt_array → is_table w prd_array → (2 ≤ w)%nat →
  let roc_cols :=
    mapM (λ j, roc_binary (column j gt_array) (column j prd_array)) (seq 0 w) in
  let pr_cols := (λ j, ap_binary (column j gt_array) (column j prd_array)) <$> seq 0 w in
  get_auc self prd_array gt_array =
  if sk_check gt_array prd_array
  then match roc_cols with
       | None => Raises ValueError
       | Some v =>
         if decide (Z.to_nat (num_class self) ≤ w `min` length (tag_list self))%nat
         then Returns (np_average v, np_average pr_cols, Scores v, Scores pr_cols)
         else Raises IndexError
       end
  else Raises ValueError.
Proof.
  intros Hgt Hprd Hw roc_cols pr_cols.
  unfold get_auc, roc_auc_score_macro, roc_auc_score_none, average_precision_score_macro,
    average_precision_score_none, binary_scores.
  rewrite (is_table_width w prd_array Hprd).
  destruct (sk_check gt_array prd_array); [|done].
  rewrite mapM_total. fold roc_cols pr_cols.
  destruct roc_cols as [v|] eqn:Hroc; simpl; [|done].
  assert (length v = w) as Hv.
  { apply length_mapM in Hroc. by rewrite length_seq in Hroc. }
  assert (length pr_cols = w) as Hpr.
  { unfold pr_cols. by rewrite length_fmap, length_seq. }
  rewrite !macro_of_wide, !per_label_of_wide by lia.
  destruct (print_per_class (tag_list self) (Scores v) (Scores pr_cols)
              (seq 0 (Z.to_nat (num_class self)))) as [[]|e] eqn:Hprint.
  - apply print_per_class_arrays in Hprint. rewrite decide_True; [done|]. lia.
  - rewrite decide_False.
    + by apply print_per_class_raises in Hprint as ->.
    + intros Hle.
      assert (print_per_class (tag_list self) (Scores v) (Scores pr_cols)
                (seq 0 (Z.to_nat (num_class self))) = Returns ()) as Hok.
      { apply print_per_class_arrays. right. lia. }
      congruence.
Qed.

Lemma select_all_kept {A} mask (r : list A) :
  length r = length mask → kept_from 0 mask = seq 0 (length mask) → select mask r = r.
Proof.
  intros Hlen Hall. apply list_eq. intros c.
  rewrite (select_lookup mask r 0%nat c Hlen), Hall.
  destruct (decide (c < length mask)%nat) as [Hc | Hc].
  - rewrite lookup_seq_lt by done. simpl. f_equal. lia.
  - rewrite lookup_seq_ge by lia. simpl. symmetry. apply lookup_ge_None. lia.
Qed.

(** X3.  On tables of more than one column in which every label has a
    positive, with one tag per column and a defined square root of the mean
    squared error, whatever [get_auc] returns is returned by
    [get_auc_turbo] as well. *)
Theorem get_auc_turbo_extends_get_auc self prd_array gt_array (w : nat) r :
  is_table w gt_array → is_table w prd_array → w ≠ 1%nat →
  length (tag_list self) = w →
  retained_columns gt_array = seq 0 w →
  is_Some (math_sqrt (mse_kernel gt_array prd_array)) →
  get_auc self prd_array gt_array = Returns r →
  get_auc_turbo prd_array gt_array (tag_list self) = Returns r.
Proof.
  intros Hgt Hprd Hw Htags Hall [rmse Hsqrt] Hret.
  set (mask := negb <$> degenerate_cols gt_array).
  assert (Hmask : length mask = w).
  { unfold mask. by rewrite length_fmap, length_degenerate_cols, (is_table_width w). }
  assert (Hkept : kept_from 0 mask = seq 0 (length mask)).
  { unfold mask at 1. by rewrite kept_retained, Hall, Hmask. }
  assert (Hsame : ∀ {A} (m : matrix A), is_table w m → mask_columns mask m = m).
  { intros A m [_ Hrows]. unfold mask_columns.
    induction Hrows as [|row m Hrow _ IH]; [done|].
    rewrite fmap_cons, IH. f_equal. apply select_all_kept; [congruence | done]. }
  unfold get_auc in Hret.
  destruct (roc_auc_score_macro gt_array prd_array) as [roc|] eqn:Hroc; [|done].
  destruct (average_precision_score_macro gt_array prd_array) as [pr|] eqn:Hpr; [|done].
  destruct (roc_auc_score_none gt_array prd_array) as [ra|] eqn:Hra; [|done].
  destruct (average_precision_score_none gt_array prd_array) as [pa|] eqn:Hpa; [|done].
  destruct (print_per_class _ _ _ _) as [[]|e] eqn:Hprint; [|done].
  injection Hret as <-.
  assert (Hchk : sk_check gt_array prd_array = true).
  { unfold roc_auc_score_macro, binary_scores in Hroc.
    by destruct (sk_check gt_array prd_array). }
  assert (Hmany : retained_columns gt_array ≠ [0%nat]).
  { rewrite Hall. intros Hone.
    assert (w = 1%nat) as -> by (destruct w as [|[|w]]; simpl in Hone; congruence).
    done. }
  rewrite (get_auc_turbo_table _ _ _ w) by auto. fold mask. rewrite !Hsame by done.
  unfold try_per_tag, try_macro, label_ranking_average_precision_score, mean_squared_error.
  rewrite Hchk, Hroc, Hpr, Hra, Hpa. simpl. by rewrite Hsqrt.
Qed.

(** ** More about runs *)

(** What an epoch that returns has done to the world. *)
Lemma train_epoch_frame self l w l' w' :
  train_epoch self l w = Ok l' w' →
  batches_read w' =
    (batches_read w + length (data_loader self) + length (valid_loader self))%nat ∧
  training w' = false ∧
  dom (model w') = dom (model w) ∧
  optim w' = match transition (current_optimizer l) (drop_counter l + 1) with
             | Some _ => next_optimizer (current_optimizer l) (optim w)
             | None => optim w
             end.
Proof.
  rewrite train_epoch_spec.
  destruct (get_auc_turbo _ _ _) as [[[[roc pr] ra] pa]|e]; [|done]. cbv zeta.
  set (w1 := if fgt roc (best_roc_auc l) then _ else _).
  assert (batches_read w1 = batches_read (after_passes self w) ∧ training w1 = false ∧
          dom (model w1) = dom (model w) ∧ optim w1 = optim w) as (Hb & Ht & Hd & Ho).
  { subst w1. destruct (fgt roc (best_roc_auc l)); simpl; by rewrite dom_after_batches. }
  destruct (_schedule _ _ _ w1) as [[co dc] w2|e w2] eqn:Hsch; [|done].
  intros [= <- <-].
  pose proof (schedule_optim _ _ _ _ _ _ Hsch) as Hoptim.
  apply schedule_frame in Hsch as (_ & Hb2 & Ht2 & Hd2).
  rewrite Hb2, Hb, Ht2, Ht, Hd2, Hd, Hoptim, Ho. done.
Qed.

(** X10.  A run of [n] epochs that returns has drawn every batch of the
    training loader and of the validation loader [n] times, has kept the
    parameter names of the model, and leaves the model in evaluation mode
    when it ran an epoch at all. *)
Theorem run_draws_every_batch self n l w l' w' :
  train_epochs self n l w = Ok l' w' →
  batches_read w' =
    (batches_read w + n * (length (data_loader self) + length (valid_loader self)))%nat ∧
  dom (model w') = dom (model w) ∧
  ((0 < n)%nat → training w' = false).
Proof.
  revert l w. induction n as [|n IH]; intros l w Hrun; simpl in Hrun.
  - injection Hrun as <- <-. split_and!; [lia | done | lia].
  - unfold mbind, M_bind in Hrun.
    destruct (train_epoch self l w) as [l1 w1|e w1] eqn:Hstep; [|done].
    apply train_epoch_frame in Hstep as (Hb & Ht & Hd & _).
    pose proof (IH _ _ Hrun) as (Hb' & Hd' & Ht'). split_and!; [lia | congruence |].
    intros _. destruct n as [|n]; [|apply Ht'; lia].
    simpl in Hrun. by injection Hrun as <- <-.
Qed.

Ltac split_tests :=
  repeat match goal with
  | |- context [(?a <? ?b)%nat] => destruct (Nat.ltb_spec a b); try lia
  | |- context [(?a =? ?b)%Z] => destruct (Z.eqb_spec a b); try lia
  end.

(** The optimizer of epoch [n + 1], from the table and the optimizer of
    epoch [n]. *)
Lemma optimizer_next n o :
  match transition (phase_at n) (counter_at n + 1) with
  | Some _ => next_optimizer (phase_at n) (optimizer_at n o)
  | None => optimizer_at n o
  end = optimizer_at (S n) o.
Proof.
  unfold transition, phase_at, counter_at, optimizer_at, next_optimizer.
  destruct (decide (n < 59)%nat); [split_tests; simpl; done|].
  destruct (decide (n = 59)%nat) as [->|]; [done|].
  destruct (decide (n < 79)%nat); [split_tests; simpl; split_tests; simpl; done|].
  destruct (decide (n = 79)%nat) as [->|]; [done|].
  destruct (decide (n < 99)%nat); [split_tests; simpl; split_tests; simpl; done|].
  destruct (decide (n = 99)%nat) as [->|]; [done|].
  split_tests; simpl; done.
Qed.

(** A run from epoch [n] on, with a checkpoint in the slot. *)
Lemma train_epochs_run self o k : ∀ n l w,
  loader_ok (length (tag_list self)) (valid_loader self) →
  (∃ sd, has_checkpoint (best_model_path self) sd w) →
  current_optimizer l = phase_at n →
  drop_counter l = counter_at n →
  optim w = optimizer_at n o →
  ∃ l' w', train_epochs self k l w = Ok l' w' ∧
    current_optimizer l' = phase_at (n + k) ∧ drop_counter l' = counter_at (n + k) ∧
    optim w' = optimizer_at (n + k) o ∧
    ∃ sd, has_checkpoint (best_model_path self) sd w'.
Proof.
  induction k as [|k IH]; intros n l w Hok Hck Hphase Hcount Hoptim; simpl.
  - exists l, w. by rewrite Nat.add_0_r.
  - destruct (train_epoch_step self l w n) as (l1 & w1 & Hstep & Hp1 & Hc1 & Hck1); auto.
    pose proof (train_epoch_frame _ _ _ _ _ Hstep) as (_ & _ & _ & Ho1).
    rewrite Hphase, Hcount, Hoptim, optimizer_next in Ho1.
    destruct (IH (S n) l1 w1) as (l' & w' & Hrun & Hp & Hc & Ho & Hck'); auto.
    exists l', w'. rewrite (bind_ok _ _ _ _ _ Hstep).
    by replace (n + S k)%nat with (S n + k)%nat by lia.
Qed.

(** The same from the start, where the first epoch may write the first
    checkpoint. *)
Lemma train_epochs_start self w n :
  loader_ok (length (tag_list self)) (valid_loader self) →
  (∃ sd, has_checkpoint (best_model_path self) sd w) ∨
    improves f0 (validation_roc self (model (after_passes self w))) →
  ∃ l' w', train_epochs self n locals0 w = Ok l' w' ∧
    optim w' = optimizer_at n (optim w) ∧
    ((0 < n)%nat → ∃ sd, has_checkpoint (best_model_path self) sd w').
Proof.
  intros Hok Hck. destruct n as [|n]; [exists locals0, w; split_and!; [done..|lia]|].
  simpl.
  destruct (train_epoch_step self locals0 w 0) as (l1 & w1 & Hstep & Hp1 & Hc1 & Hck1); auto.
  pose proof (train_epoch_frame _ _ _ _ _ Hstep) as (_ & _ & _ & Ho1).
  change (current_optimizer locals0) with (phase_at 0) in Ho1.
  change (drop_counter locals0) with (counter_at 0) in Ho1.
  change (optim w) with (optimizer_at 0 (optim w)) in Ho1 at 1 2.
  rewrite optimizer_next in Ho1.
  destruct (train_epochs_run self (optim w) n 1 l1 w1)
    as (l' & w' & Hrun & _ & _ & Ho & Hck'); auto.
  exists l', w'. rewrite (bind_ok _ _ _ _ _ Hstep). auto.
Qed.


Lemma init_attributes dl vl config root w0 self w1 :
  Solver_init dl vl config root w0 = Ok self w1 →
  model_fn self = best_model_path self ∧ data_loader self = dl ∧ valid_loader self = vl.
Proof.
  unfold Solver_init, mbind, M_bind.
  destruct (get_tag_list config root w0) as [tags w2|e w2]; [|done].
  destruct (select_subset (cfg_subset config) tags) as [[nc|] tags']; [|done].
  unfold build_model, modify, mret, M_ret. by intros [= <- _].
Qed.

(** X12.  Training and evaluation fit together: for a solver built by
    [__init__], [test] loads the file that [train] writes.  After a run of
    one epoch or more that can reload its checkpoint, [test] on well-formed
    evaluation tables returns and leaves the two metric files. *)
Theorem test_after_train dl vl config root w0 self w1 n :
  Solver_init dl vl config root w0 = Ok self w1 →
  loader_ok (length (tag_list self)) vl →
  loader_ok (length (tag_list self)) dl →
  (∃ sd, has_checkpoint (best_model_path self) sd w1) ∨
    improves f0 (validation_roc self (model (after_passes self w1))) →
  (0 < n)%nat →
  ∃ l' w2 w3,
    train_epochs self n locals0 w1 = Ok l' w2 ∧
    test self w2 = Ok () w3 ∧
    is_Some (stored_vector w3 (roc_auc_fn self)) ∧
    is_Some (stored_vector w3 (pr_auc_fn self)).
Proof.
  intros Hinit Hvl Hdl Hck Hn.
  pose proof (init_attributes _ _ _ _ _ _ _ Hinit) as (Hfn & Hd & Hv).
  rewrite <- Hv in Hvl. rewrite <- Hd in Hdl.
  destruct (train_epochs_start self w1 n Hvl Hck) as (l' & w2 & Hrun & _ & Hck2).
  destruct (Hck2 Hn) as [sd Hsd]. rewrite <- Hfn in Hsd.
  destruct Hdl as (Hgt & Hkeep & Hprd).
  destruct (get_auc_turbo_returns (predictions false sd (data_loader self))
              (ground_truth (data_loader self)) (tag_list self))
    as (roc & pr & ra & pa & Hret); [done | apply Hprd | done |].
  exists l', w2. eexists. split; [done|].
  rewrite (test_spec _ _ _ Hsd), Hret. cbv zeta. split; [done|].
  unfold stored_vector. simpl. split.
  - destruct (decide (pr_auc_fn self = roc_auc_fn self)) as [->|Hne].
    + rewrite lookup_insert_eq. by eexists.
    + rewrite lookup_insert_ne, lookup_insert_eq by done. by eexists.
  - rewrite lookup_insert_eq. by eexists.
Qed.

(** X8.  The checkpoint is the best model: after a run, either the best
    value and the files are what they were, or the slot holds the state
    dictionary of parameters whose validation ROC-AUC is the best value,
    under the parameter names of the model, and no other file changed. *)
Theorem checkpoint_holds_best self n l w l' w' :
  train_epochs self n l w = Ok l' w' →
  (best_roc_auc l' = best_roc_auc l ∧ disk w' = disk w) ∨
  (∃ sd, disk w' = <[best_model_path self := Pickle (state_dict sd)]> (disk w) ∧
         best_roc_auc l' = validation_roc self sd ∧
         dom sd = dom (model w)).
Proof.
  revert l w. induction n as [|n IH]; intros l w Hrun; simpl in Hrun.
  - injection Hrun as <- <-. by left.
  - unfold mbind, M_bind in Hrun.
    destruct (train_epoch self l w) as [l1 w1|e w1] eqn:Hstep; [|done].
    pose proof (train_epoch_frame _ _ _ _ _ Hstep) as (_ & _ & Hdom & _).
    apply IH in Hrun as [[Hbest Hdisk] | (sd & Hdisk & Hbest & Hsd)];
      destruct (train_epoch_best _ _ _ _ _ Hstep)
        as [(_ & Hbest1 & Hdisk1) | (_ & Hbest1 & Hdisk1)].
    + right. exists (model (after_passes self w)). split_and!; [congruence | congruence |].
      simpl. apply dom_after_batches.
    + left. split; congruence.
    + right. exists sd. rewrite Hdisk, Hdisk1, insert_insert_eq. split_and!; [done..|congruence].
    + right. exists sd. rewrite Hdisk, Hdisk1. split_and!; [done..|congruence].
Qed.








End SolverMore.

(** ** More runs on the reference instance *)

(** The first label is the only one retained: the print loop indexes a
    float. *)
Lemma get_auc_turbo_raises_witness :
  get_auc_turbo Ref.preds_1 Ref.only_first Ref.four_tags = Raises IndexError ∧
  IndexError ≠ ValueError ∧ Ref.only_first ≠ [].
Proof.
  assert (get_auc_turbo Ref.preds_1 Ref.only_first Ref.four_tags = Raises IndexError) as E
    by (vm_compute; reflexivity).
  destruct (get_auc_turbo_raises Ref.preds_1 Ref.only_first Ref.four_tags 4 4 IndexError)
    as (Hne & _ & Hidx).
  - right. apply is_tableb_spec. vm_compute. reflexivity.
  - right. apply is_tableb_spec. vm_compute. reflexivity.
  - exact E.
  - split; [exact E|]. split; [exact Hne | apply Hidx; reflexivity].
Defined.

(** Scenario 1 with other scores in the two dropped columns. *)
Lemma get_auc_turbo_ignores_dropped_columns_witness :
  get_auc_turbo Ref.preds_1 scenario_1 Ref.four_tags =
  get_auc_turbo Ref.preds_1_alt scenario_1 Ref.four_tags.
Proof.
  apply (get_auc_turbo_ignores_dropped_columns Ref.preds_1 Ref.preds_1_alt scenario_1
           Ref.four_tags 4).
  - apply is_tableb_spec. vm_compute. reflexivity.
  - apply is_tableb_spec. vm_compute. reflexivity.
  - assert (retained_columns scenario_1 = [0; 2]%nat) as -> by (vm_compute; reflexivity).
    repeat constructor; intros j Hj;
      repeat (apply elem_of_cons in Hj as [-> | Hj]; [reflexivity|]);
      by apply elem_of_nil in Hj.
Defined.

(** The two-label data set, scored by the fresh model. *)
Lemma get_auc_turbo_extends_get_auc_witness :
  ∃ r, get_auc Ref.solver0 Ref.preds_2 Ref.truth_2 = Returns r ∧
       get_auc_turbo Ref.preds_2 Ref.truth_2 Ref.two_tags = Returns r.
Proof.
  destruct (get_auc Ref.solver0 Ref.preds_2 Ref.truth_2) as [r|e] eqn:E;
    [|vm_compute in E; discriminate].
  exists r. split; [reflexivity|].
  apply (get_auc_turbo_extends_get_auc Ref.solver0 Ref.preds_2 Ref.truth_2 2 r).
  - apply is_tableb_spec. vm_compute. reflexivity.
  - apply is_tableb_spec. vm_compute. reflexivity.
  - discriminate.
  - reflexivity.
  - vm_compute. reflexivity.
  - vm_compute. eexists. reflexivity.
  - exact E.
Defined.

(** A class count of three on tables of two columns. *)
Lemma get_auc_cases_witness :
  get_auc Ref.solver3 Ref.preds_2 Ref.truth_2 = Raises IndexError.
Proof.
  rewrite (get_auc_cases Ref.solver3 Ref.preds_2 Ref.truth_2 2).
  - vm_compute. reflexivity.
  - apply is_tableb_spec. vm_compute. reflexivity.
  - apply is_tableb_spec. vm_compute. reflexivity.
  - lia.
Defined.

(** An improvement from 0 to 1, a changed bias, and the reload. *)
Lemma save_best_then_load_witness :
  (save_best Ref.solver0 1%Q 0%Q ;; modify (set_model {[ "fc.bias" := [(1 # 2)%Q] ]}) ;;
   load "models/best_model.pth") Ref.world0 = Ok () Ref.world1.
Proof.
  apply (save_best_then_load Ref.solver0 1%Q 0%Q Ref.world0 {[ "fc.bias" := [(1 # 2)%Q] ]}).
  - reflexivity.
  - simpl. by rewrite !dom_singleton_L.
Defined.


(** A run of three epochs from an empty directory. *)
Lemma checkpoint_holds_best_witness :
  ∃ l' w' sd, train_epochs Ref.solver0 3 locals0 Ref.world0 = Ok l' w' ∧
    disk w' !! "models/best_model.pth" = Some (Pickle (state_dict sd)) ∧
    best_roc_auc l' = validation_roc Ref.solver0 sd.
Proof.
  assert (best_roc_auc <$> returned (train_epochs Ref.solver0 3 locals0 Ref.world0)
          = Some 1%Q) as E by (vm_compute; reflexivity).
  destruct (train_epochs Ref.solver0 3 locals0 Ref.world0) as [l' w'|e w'] eqn:Hrun;
    [|discriminate].
  injection E as E.
  destruct (checkpoint_holds_best Ref.solver0 3 locals0 Ref.world0 l' w' Hrun)
    as [[Hbest _] | (sd & Hdisk & Hbest & _)].
  - rewrite E in Hbest. discriminate.
  - exists l', w', sd. split; [reflexivity|]. split; [|exact Hbest].
    rewrite Hdisk. apply lookup_insert_eq.
Defined.


(** Three epochs over two training and two validation batches. *)
Lemma run_draws_every_batch_witness :
  ∃ l' w', train_epochs Ref.solver0 3 locals0 Ref.world0 = Ok l' w' ∧
           batches_read w' = 12%nat ∧ training w' = false.
Proof.
  assert (best_roc_auc <$> returned (train_epochs Ref.solver0 3 locals0 Ref.world0)
          = Some 1%Q) as E by (vm_compute; reflexivity).
  destruct (train_epochs Ref.solver0 3 locals0 Ref.world0) as [l' w'|e w'] eqn:Hrun;
    [|discriminate].
  destruct (run_draws_every_batch Ref.solver0 3 locals0 Ref.world0 l' w' Hrun)
    as (Hread & _ & Hmode).
  exists l', w'. split; [reflexivity|]. split; [exact Hread | apply Hmode; lia].
Defined.

(** The evaluation does not depend on the bias in memory. *)
Lemma test_evaluates_checkpoint_witness :
  test Ref.solver3 (set_model {[ "fc.bias" := [(1 # 2)%Q] ]} Ref.world1) =
  test Ref.solver3 Ref.world1.
Proof.
  destruct (test_evaluates_checkpoint Ref.solver3 Ref.world1 (CNN 2)) as [Hsame _].
  - split; reflexivity.
  - repeat constructor.
  - apply Hsame. simpl. by rewrite !dom_singleton_L.
Defined.

(** The subset "instrument": construction, one epoch of training and the
    evaluation. *)
Lemma test_after_train_witness :
  ∃ l' w2 w3,
    train_epochs Ref.solver_instrument 1 locals0 Ref.world_instrument = Ok l' w2 ∧
    test Ref.solver_instrument w2 = Ok () w3 ∧
    is_Some (stored_vector w3 "roc_auc_instrument_0.npy").
Proof.
  destruct (@test_after_train Q Ref.float_Q Ref.sklearn_Q Ref.torch_Q Ref.wide_batches Ref.wide_batches Ref.config_instrument "/data"
              Ref.world_tags Ref.solver_instrument Ref.world_instrument 1)
    as (l' & w2 & w3 & Hrun & Htest & Hroc & _).
  - reflexivity.
  - split_and!.
    + apply is_tableb_spec. vm_compute. reflexivity.
    + vm_compute. discriminate.
    + intros mode params. split; [discriminate | repeat constructor].
  - split_and!.
    + apply is_tableb_spec. vm_compute. reflexivity.
    + vm_compute. discriminate.
    + intros mode params. split; [discriminate | repeat constructor].
  - right. vm_compute. reflexivity.
  - lia.
  - exists l', w2, w3. split; [exact Hrun|]. split; [exact Htest | exact Hroc].
Defined.


(** The subset "mood" is none of the five. *)
Lemma init_fails_early_witness :
  Solver_init [] [] Ref.config_mood "/data" Ref.world_tags =
  Raise AttributeError Ref.world_tags.
Proof.
  destruct (init_fails_early [] [] Ref.config_mood "/data" Ref.world_tags)
    as (_ & Hunknown & _).
  apply (Hunknown Ref.master_tags).
  - reflexivity.
  - intros Hin.
    repeat (apply elem_of_cons in Hin as [Hin | Hin]; [discriminate|]).
    by apply elem_of_nil in Hin.
Defined.

(** A checkpoint of the fresh model is loaded as it is. *)
Lemma load_strict_witness :
  ∃ w', load "models/best_model.pth" Ref.world1 = Ok () w' ∧
        disk Ref.world1 !! "models/best_model.pth" = Some (Pickle (state_dict (model w'))) ∧
        w' = set_model (model w') Ref.world1.
Proof.
  destruct (load_strict "models/best_model.pth" Ref.world1) as (Hok & _ & _).
  assert (load "models/best_model.pth" Ref.world1 = Ok () (set_model (CNN 2) Ref.world1))
    as E by reflexivity.
  exists (set_model (CNN 2) Ref.world1). split; [exact E|].
  destruct (Hok _ E) as (Hfile & _ & Hframe). split; [exact Hfile | exact Hframe].
Defined.

(** The validation pass of the fresh model on the two-label data set. *)
Lemma validation_read_only_witness :
  ∃ roc pr w', _validation Ref.solver0 Ref.world0 = Ok (roc, pr) w' ∧
    model w' = CNN 2 ∧ disk w' = ∅ ∧ training w' = false ∧ batches_read w' = 2%nat.
Proof.
  assert (is_Some (returned (_validation Ref.solver0 Ref.world0))) as E
    by (vm_compute; eexists; reflexivity).
  pose proof (validation_read_only Ref.solver0 Ref.world0) as H.
  destruct (_validation Ref.solver0 Ref.world0) as [[roc pr] w'|e w'];
    [|destruct E; discriminate].
  destruct H as (_ & Hmodel & _ & Hdisk & Hmode & Hread); [repeat constructor|].
  exists roc, pr, w'. split; [reflexivity|].
  split; [exact Hmodel|]. split; [exact Hdisk|]. split; [exact Hmode | exact Hread].
Defined.
